(** * MiniTravelDiary: entry storage, HTTP routes and image resizing

    A shallow embedding of [server/storage.ts] (class [MemStorage]),
    [server/routes.ts] (the handlers registered by [registerRoutes]),
    [shared/schema.ts] (the insert schema) and of the dimension computation
    of [client/src/lib/supabase.ts], followed by the properties of the
    travel-diary specification that concern them.

    Conventions of the embedding.
    - JavaScript numbers that hold identifiers, timestamps and pixel counts
      are integers of the safe range (below 2^53), on which the arithmetic
      of doubles is exact; they are values of [Z].  Numbers that arrive
      inside a JSON body are IEEE doubles ([PrimFloat.float]).
    - Strings are sequences of code units of the Latin-1 range.
    - [undefined] is [None]; a nullable field holds [None] for [null].
    - [new Date()] and [uuidv4()] read the environment: the instant and the
      token they return are arguments of the operation that calls them. *)

From Stdlib Require Import ZArith List String Ascii Bool Lia.
From Stdlib Require Import Permutation Sorted Floats.
From Stdlib Require Import DecimalString DecimalZ DecimalPos.
Import ListNotations.

Local Open Scope string_scope.
Local Open Scope Z_scope.

Set Warnings "-register-all,-inexact-float".

(** ** JavaScript values *)

Module Js.

(** A value produced by [JSON.parse] (the body parser of the server).
    [JObj] lists the own properties of an object, each key once. *)
Inductive json : Type :=
| JNull
| JBool (b : bool)
| JNum (x : float)
| JStr (s : string)
| JArr (items : list json)
| JObj (fields : list (string * json)).

(** ToBoolean on strings: only the empty string is falsy. *)
Definition truthyStr (s : string) : bool :=
  match s with EmptyString => false | String _ _ => true end.

(** ToBoolean on parsed JSON. *)
Definition truthy (v : json) : bool :=
  match v with
  | JNull => false
  | JBool b => b
  | JNum x => negb (PrimFloat.is_zero x || PrimFloat.is_nan x)
  | JStr s => truthyStr s
  | JArr _ => true
  | JObj _ => true
  end.

(** ToBoolean on a possibly undefined value. *)
Definition truthyOpt (v : option json) : bool :=
  match v with None => false | Some v => truthy v end.

(** ToBoolean on a [string | null | undefined]. *)
Definition truthyOptStr (s : option string) : bool :=
  match s with None => false | Some s => truthyStr s end.

(** [a || b] on strings that may be null or undefined. *)
Definition orStr (a b : option string) : option string :=
  if truthyOptStr a then a else b.

Fixpoint lookup (k : string) (fields : list (string * json)) : option json :=
  match fields with
  | [] => None
  | (k', v) :: rest => if String.eqb k k' then Some v else lookup k rest
  end.

(** [o.k] and [o?.k] for the keys the server reads ([userId], [width],
    [lat], ...): an own property of a parsed object, [undefined] on every
    other value (none of these keys is inherited from a prototype). *)
Definition getProp (o : option json) (k : string) : option json :=
  match o with
  | Some (JObj fields) => lookup k fields
  | _ => None
  end.

(** [typeof v === 'object'] for a truthy [v]. *)
Definition isObject (v : json) : bool :=
  match v with JArr _ | JObj _ => true | _ => false end.

(** [k in v] for an object [v] and a key [k] that is neither an index nor
    inherited. *)
Definition hasKey (k : string) (v : json) : bool :=
  match v with
  | JObj fields => match lookup k fields with Some _ => true | None => false end
  | _ => false
  end.

(** How an evaluation ends: with a value or with an exception. *)
Inductive completion (T : Type) : Type :=
| Return (value : T)
| Throw (error : string).
Arguments Return {T} value.
Arguments Throw {T} error.

(** Whether converting [v] to a primitive throws.  A parsed object
    inherits [toString] unless it has an own property of that name, whose
    value is never callable; converting such an object is a TypeError.  An
    array is joined, which converts its elements. *)
Fixpoint throwsToPrimitive (v : json) : bool :=
  match v with
  | JObj fields =>
      match lookup "toString" fields with Some _ => true | None => false end
  | JArr items => existsb throwsToPrimitive items
  | _ => false
  end.

(** The result of [Number(v)].  On a number it is that number; on any
    other value that converts the number is kept symbolic. *)
Inductive number : Type :=
| Num (x : float)
| NumberOf (v : json).

Definition Number (v : option json) : completion number :=
  match v with
  | Some (JNum x) => Return (Num x)
  | Some v =>
      if throwsToPrimitive v
      then Throw "TypeError: Cannot convert object to primitive value"
      else Return (NumberOf v)
  | None => Return (Num PrimFloat.nan)
  end.

(** [a || b] on a possibly undefined JSON value with a default. *)
Definition orElse (a : option json) (b : json) : json :=
  match a with
  | Some v => if truthy v then v else b
  | None => b
  end.

(** *** parseInt *)

(** [Number.isSafeInteger(n)]: the integers every double arithmetic step
    of the server keeps exact, and that [String] writes digit by digit. *)
Definition isSafeInteger (n : Z) : bool := (- 2 ^ 53 <? n) && (n <? 2 ^ 53).

(** StrWhiteSpaceChar, restricted to the code units below 256. *)
Definition isWhiteSpace (c : ascii) : bool :=
  let n := nat_of_ascii c in
  ((9 <=? n) && (n <=? 13) || (n =? 32) || (n =? 160))%nat.

Fixpoint trimStart (s : string) : string :=
  match s with
  | String c rest => if isWhiteSpace c then trimStart rest else s
  | EmptyString => s
  end.

(** The value of a digit in radix [r], if it is one. *)
Definition digitValue (r : Z) (c : ascii) : option Z :=
  let n := Z.of_nat (nat_of_ascii c) in
  let v :=
    if (48 <=? n) && (n <=? 57) then Some (n - 48)
    else if (97 <=? n) && (n <=? 122) then Some (n - 87)
    else if (65 <=? n) && (n <=? 90) then Some (n - 55)
    else None in
  match v with
  | Some d => if d <? r then Some d else None
  | None => None
  end.

(** Reads the longest prefix of digits, [acc] holding the value read so
    far and [seen] whether a digit was read. *)
Fixpoint readDigits (r : Z) (s : string) (acc : Z) (seen : bool) : option Z :=
  match s with
  | String c rest =>
      match digitValue r c with
      | Some d => readDigits r rest (acc * r + d) true
      | None => if seen then Some acc else None
      end
  | EmptyString => if seen then Some acc else None
  end.

Definition stripSign (s : string) : Z * string :=
  match s with
  | String "-" rest => (-1, rest)
  | String "+" rest => (1, rest)
  | _ => (1, s)
  end.

Definition stripHexPrefix (s : string) : Z * string :=
  match s with
  | String "0" (String "x" rest) => (16, rest)
  | String "0" (String "X" rest) => (16, rest)
  | _ => (10, s)
  end.

(** [parseInt(s)] without a radix; [None] is NaN.  Whether the result is
    NaN is decided as in JavaScript for every string of code units below
    256.  The value is the integer the digits denote, which is what
    JavaScript returns while that integer is safe ([isSafeInteger]);
    beyond, JavaScript rounds it to a double. *)
Definition parseInt (s : string) : option Z :=
  let '(sign, s1) := stripSign (trimStart s) in
  let '(radix, s2) := stripHexPrefix s1 in
  match readDigits radix s2 0 false with
  | Some n => Some (sign * n)
  | None => None
  end.

(** *** Map *)

(** A [Map<number, V>]: the bindings in insertion order. *)
Section Map.
Context {V : Type}.

Fixpoint mapGet (k : Z) (m : list (Z * V)) : option V :=
  match m with
  | [] => None
  | (k', v) :: rest => if k =? k' then Some v else mapGet k rest
  end.

(** [m.set(k, v)]: an existing key keeps its position. *)
Fixpoint mapSet (k : Z) (v : V) (m : list (Z * V)) : list (Z * V) :=
  match m with
  | [] => [(k, v)]
  | (k', v') :: rest =>
      if k =? k' then (k, v) :: rest else (k', v') :: mapSet k v rest
  end.

Definition mapDelete (k : Z) (m : list (Z * V)) : list (Z * V) :=
  filter (fun p => negb (fst p =? k)) m.

Definition mapValues (m : list (Z * V)) : list V := map snd m.

Definition mapKeys (m : list (Z * V)) : list Z := map fst m.
End Map.

(** *** Array.prototype.sort *)

(** [xs.sort(cmp)].  The sort is stable and [cmp] is the only thing it
    looks at; insertion from the right is such a sort.  [x] is placed in
    front of the first element it does not have to follow. *)
Section Sort.
Context {A : Type} (cmp : A -> A -> Z).

Fixpoint insert (x : A) (l : list A) : list A :=
  match l with
  | [] => [x]
  | y :: rest => if 0 <? cmp x y then y :: insert x rest else x :: l
  end.

Fixpoint sort (l : list A) : list A :=
  match l with
  | [] => []
  | x :: rest => insert x (sort rest)
  end.
End Sort.

(** [xs.find(p)] *)
Definition find {A : Type} (p : A -> bool) (l : list A) : option A :=
  List.find p l.

(** *** Strings *)

(** [s.split(sep)] for a separator of one character: the pieces between
    the occurrences of [sep], at least one. *)
Fixpoint split (sep : ascii) (s : string) : list string :=
  match s with
  | EmptyString => [EmptyString]
  | String c rest =>
      if Ascii.eqb c sep then EmptyString :: split sep rest
      else
        match split sep rest with
        | piece :: pieces => String c piece :: pieces
        | [] => [String c EmptyString]
        end
  end.

(** [String(n)] and [`${n}`] for a safe integer [n] ([isSafeInteger]):
    decimal digits, a minus sign in front of a negative number.  (From
    1e21 on JavaScript writes an exponent instead.) *)
Definition numberToString (n : Z) : string :=
  NilZero.string_of_int (Z.to_int n).

End Js.

(** ** shared/schema.ts *)

(** The instant an ISO-8601 string written by [toISOString] denotes, in
    milliseconds; [new Date(s).getTime()] reads it back unchanged. *)
Definition isoString := Z.

Definition getTime (s : isoString) : Z := s.

Module Location.
Record t : Type := mk { lat : Js.number; lng : Js.number }.
End Location.

Module ScreenInfo.
Record t : Type := mk { width : Js.json; height : Js.json; orientation : Js.json }.
End ScreenInfo.

(** [typeof diaryEntries.$inferSelect] *)
Module DiaryEntry.
Record t : Type := mk {
  id : Z;
  userId : string;
  caption : string;
  imageUrl : string;
  location : option Location.t;
  screenInfo : ScreenInfo.t;
  createdAt : isoString;
  shareId : option string;
  isShared : bool
}.
End DiaryEntry.

(** [z.infer<typeof insertEntrySchema>]: [id] and [createdAt] omitted,
    [captionText] added.  [location] and [shareId] are nullable and
    optional, [isShared] has a default and is optional; the two [jsonb]
    columns hold any JSON value. *)
Module InsertDiaryEntry.
Record t : Type := mk {
  userId : string;
  caption : string;
  imageUrl : string;
  location : option Js.json;
  screenInfo : Js.json;
  shareId : option (option string);
  isShared : option bool;
  captionText : option string
}.

Definition withCaption (c : string) (d : t) : t :=
  mk (userId d) c (imageUrl d) (location d) (screenInfo d)
     (shareId d) (isShared d) (captionText d).
End InsertDiaryEntry.

(** The validation [insertEntrySchema.safeParse] performs.  The schema is
    derived from the columns of [diaryEntries]: a [notNull] text column
    without a default is a required string, a nullable column is optional
    and nullable, a column with a default is optional, a [jsonb] column
    accepts every JSON value ([$type] only annotates it).  Unknown keys are
    dropped; every failing key is reported. *)
Module Zod.
Import Js.

Inductive issue : Type :=
| Required (path : string)
| InvalidType (path : string) (expected : string)
| InvalidUnion (path : string).

Definition checked (T : Type) : Type := (T + issue)%type.

Definition zString (path : string) (v : option json) : checked string :=
  match v with
  | Some (JStr s) => inl s
  | None => inr (Required path)
  | Some _ => inr (InvalidType path "string")
  end.

Definition zStringOptional (path : string) (v : option json)
  : checked (option string) :=
  match v with
  | None => inl None
  | Some (JStr s) => inl (Some s)
  | Some _ => inr (InvalidType path "string")
  end.

Definition zStringNullableOptional (path : string) (v : option json)
  : checked (option (option string)) :=
  match v with
  | None => inl None
  | Some JNull => inl (Some None)
  | Some (JStr s) => inl (Some (Some s))
  | Some _ => inr (InvalidType path "string")
  end.

Definition zBooleanOptional (path : string) (v : option json)
  : checked (option bool) :=
  match v with
  | None => inl None
  | Some (JBool b) => inl (Some b)
  | Some _ => inr (InvalidType path "boolean")
  end.

(** A [jsonb] column that is not null: the union of the JSON values,
    of which [undefined] matches no member. *)
Definition zJson (path : string) (v : option json) : checked json :=
  match v with
  | Some v => inl v
  | None => inr (InvalidUnion path)
  end.

Definition zJsonNullableOptional (path : string) (v : option json)
  : checked (option json) :=
  inl v.

Definition issuesOf {T : Type} (c : checked T) : list issue :=
  match c with inl _ => [] | inr i => [i] end.

Definition safeParse (body : json) : InsertDiaryEntry.t + list issue :=
  match body with
  | JObj _ =>
      let o := Some body in
      let userId := zString "userId" (getProp o "userId") in
      let caption := zString "caption" (getProp o "caption") in
      let imageUrl := zString "imageUrl" (getProp o "imageUrl") in
      let location := zJsonNullableOptional "location" (getProp o "location") in
      let screenInfo := zJson "screenInfo" (getProp o "screenInfo") in
      let shareId := zStringNullableOptional "shareId" (getProp o "shareId") in
      let isShared := zBooleanOptional "isShared" (getProp o "isShared") in
      let captionText := zStringOptional "captionText" (getProp o "captionText") in
      match userId, caption, imageUrl, location,
            screenInfo, shareId, isShared, captionText with
      | inl u, inl c, inl i, inl l, inl s, inl sh, inl b, inl ct =>
          inl (InsertDiaryEntry.mk u c i l s sh b ct)
      | _, _, _, _, _, _, _, _ =>
          inr (issuesOf userId ++ issuesOf caption ++ issuesOf imageUrl
               ++ issuesOf location ++ issuesOf screenInfo
               ++ issuesOf shareId ++ issuesOf isShared
               ++ issuesOf captionText)%list
      end
  | _ => inr [InvalidType "" "object"]
  end.
End Zod.

(** ** server/storage.ts *)

Module MemStorage.
Import Js.

Record t : Type := mk {
  entries : list (Z * DiaryEntry.t);
  currentId : Z
}.

(** [constructor()] *)
Definition new : t := mk [] 1.

Definition defaultCaption : string := "My travel memory".

(** The 1x1 PNG used when no image is given. *)
Definition defaultImageUrl : string :=
  "data:image/png;base64,iVBORw0KGgoAAAANSUhEUgAAAAEAAAABCAYAAAAfFcSJAAAADUlEQVR42mP8z8BQDwAEhQGAhKmMIQAAAABJRU5ErkJggg==".

Definition byCreatedAtDesc (a b : DiaryEntry.t) : Z :=
  getTime (DiaryEntry.createdAt b) - getTime (DiaryEntry.createdAt a).

Definition getEntriesByUserId (this : t) (userId : string)
  : list DiaryEntry.t :=
  sort byCreatedAtDesc
    (filter (fun entry => String.eqb (DiaryEntry.userId entry) userId)
       (mapValues (entries this))).

Definition getEntry (this : t) (id : Z) : option DiaryEntry.t :=
  mapGet id (entries this).

(** [entry.shareId === shareId] for a string [shareId]. *)
Definition shareIdIs (shareId : string) (entry : DiaryEntry.t) : bool :=
  match DiaryEntry.shareId entry with
  | Some s => String.eqb s shareId
  | None => false
  end.

Definition getEntryByShareId (this : t) (shareId : string)
  : option DiaryEntry.t :=
  find (fun entry => shareIdIs shareId entry && DiaryEntry.isShared entry)
    (mapValues (entries this)).

Definition updateEntrySharing (this : t) (id : Z) (isShared : bool)
  (shareId : option string) : option DiaryEntry.t * t :=
  match mapGet id (entries this) with
  | None => (None, this)
  | Some entry =>
      let updatedEntry :=
        DiaryEntry.mk (DiaryEntry.id entry) (DiaryEntry.userId entry)
          (DiaryEntry.caption entry) (DiaryEntry.imageUrl entry)
          (DiaryEntry.location entry) (DiaryEntry.screenInfo entry)
          (DiaryEntry.createdAt entry)
          (orStr shareId (DiaryEntry.shareId entry))
          isShared in
      (Some updatedEntry,
       mk (mapSet id updatedEntry (entries this)) (currentId this))
  end.

Definition locationData (location : option json)
  : completion (option Location.t) :=
  match location with
  | Some l =>
      if truthy l && isObject l && hasKey "lat" l && hasKey "lng" l
      then
        match Number (getProp location "lat") with
        | Throw error => Throw error
        | Return lat =>
            match Number (getProp location "lng") with
            | Throw error => Throw error
            | Return lng => Return (Some (Location.mk lat lng))
            end
        end
      else Return None
  | None => Return None
  end.

Definition screenInfoData (screenInfo : json) : ScreenInfo.t :=
  let s := Some screenInfo in
  ScreenInfo.mk (orElse (getProp s "width") (JNum 0))
                (orElse (getProp s "height") (JNum 0))
                (orElse (getProp s "orientation") (JStr "unknown")).

(** [a || b] on strings. *)
Definition orDefault (a b : string) : string :=
  if truthyStr a then a else b.

(** The record [createEntry] builds. *)
Definition newEntry (id : Z) (entryData : InsertDiaryEntry.t)
  (locationData : option Location.t) (timestamp : isoString) : DiaryEntry.t :=
  DiaryEntry.mk id
    (InsertDiaryEntry.userId entryData)
    (orDefault (InsertDiaryEntry.caption entryData) defaultCaption)
    (orDefault (InsertDiaryEntry.imageUrl entryData) defaultImageUrl)
    locationData
    (screenInfoData (InsertDiaryEntry.screenInfo entryData))
    timestamp
    None
    false.

(** [now] is the instant [new Date()] returns.  The counter is advanced
    first; an exception raised while the location is converted is thrown
    on to the caller, with the counter advanced and nothing stored. *)
Definition createEntry (this : t) (entryData : InsertDiaryEntry.t)
  (now : isoString) : completion DiaryEntry.t * t :=
  let id := currentId this in
  match locationData (InsertDiaryEntry.location entryData) with
  | Throw error => (Throw error, mk (entries this) (id + 1))
  | Return location =>
      let entry := newEntry id entryData location now in
      (Return entry, mk (mapSet id entry (entries this)) (id + 1))
  end.

Definition deleteEntry (this : t) (id : Z) : t :=
  mk (mapDelete id (entries this)) (currentId this).
End MemStorage.

(** ** server/routes.ts *)

Module Routes.
Import Js.

Inductive payload : Type :=
| Message (message : string)
| Invalid (message : string) (errors : list Zod.issue)
| Entry (entry : DiaryEntry.t)
| Entries (entries : list DiaryEntry.t)
| Shared (message : string) (shareId : option string) (shareUrl : string).

Record response : Type := res { status : Z; body : payload }.

(** GET /api/entries, [userId] being [req.query.userId]. *)
Definition listEntries (storage : MemStorage.t) (userId : option string)
  : response :=
  match userId with
  | Some u =>
      if truthyStr u
      then res 200 (Entries (MemStorage.getEntriesByUserId storage u))
      else res 400 (Message "User ID is required")
  | None => res 400 (Message "User ID is required")
  end.

(** GET /api/entries/:id *)
Definition getEntry (storage : MemStorage.t) (id : string) : response :=
  match parseInt id with
  | None => res 400 (Message "Invalid entry ID")
  | Some entryId =>
      match MemStorage.getEntry storage entryId with
      | None => res 404 (Message "Entry not found")
      | Some entry => res 200 (Entry entry)
      end
  end.

Definition fallbackCaption : string := "My travel moment".

(** The caption the handler settles on before it calls the storage. *)
Definition ensureCaption (entryData : InsertDiaryEntry.t)
  : InsertDiaryEntry.t :=
  let caption := InsertDiaryEntry.caption entryData in
  match InsertDiaryEntry.captionText entryData with
  | Some captionText =>
      if negb (truthyStr caption) && truthyStr captionText
      then InsertDiaryEntry.withCaption captionText entryData
      else if negb (truthyStr caption)
      then InsertDiaryEntry.withCaption fallbackCaption entryData
      else entryData
  | None =>
      if negb (truthyStr caption)
      then InsertDiaryEntry.withCaption fallbackCaption entryData
      else entryData
  end.

(** POST /api/entries, [body] being [req.body]. *)
Definition createEntry (storage : MemStorage.t) (body : json)
  (now : isoString) : response * MemStorage.t :=
  if negb (truthyOpt (getProp (Some body) "userId"))
  then (res 400 (Message "User ID is required"), storage)
  else
    match Zod.safeParse body with
    | inr errors => (res 400 (Invalid "Invalid entry data" errors), storage)
    | inl entryData =>
        match MemStorage.createEntry storage (ensureCaption entryData) now with
        | (Return newEntry, storage') => (res 201 (Entry newEntry), storage')
        | (Throw _, storage') =>
            (res 500 (Message "Failed to create entry"), storage')
        end
    end.

(** DELETE /api/entries/:id *)
Definition deleteEntry (storage : MemStorage.t) (id : string)
  : response * MemStorage.t :=
  match parseInt id with
  | None => (res 400 (Message "Invalid entry ID"), storage)
  | Some entryId =>
      match MemStorage.getEntry storage entryId with
      | None => (res 404 (Message "Entry not found"), storage)
      | Some _ =>
          (res 200 (Message "Entry deleted successfully"),
           MemStorage.deleteEntry storage entryId)
      end
  end.

Definition shareUrlOf (shareId : option string) : string :=
  "/shared/" ++ match shareId with Some s => s | None => "null" end.

(** POST /api/entries/:id/share, [uuid] being what [uuidv4()] returns
    if it is called. *)
Definition shareEntry (storage : MemStorage.t) (id : string) (uuid : string)
  : response * MemStorage.t :=
  match parseInt id with
  | None => (res 400 (Message "Invalid entry ID"), storage)
  | Some entryId =>
      match MemStorage.getEntry storage entryId with
      | None => (res 404 (Message "Entry not found"), storage)
      | Some entry =>
          let shareId := orStr (DiaryEntry.shareId entry) (Some uuid) in
          match MemStorage.updateEntrySharing storage entryId true shareId with
          | (None, storage') =>
              (res 500 (Message "Failed to update entry"), storage')
          | (Some updatedEntry, storage') =>
              (res 200 (Shared "Entry shared successfully"
                          (DiaryEntry.shareId updatedEntry)
                          (shareUrlOf (DiaryEntry.shareId updatedEntry))),
               storage')
          end
      end
  end.

(** POST /api/entries/:id/unshare *)
Definition unshareEntry (storage : MemStorage.t) (id : string)
  : response * MemStorage.t :=
  match parseInt id with
  | None => (res 400 (Message "Invalid entry ID"), storage)
  | Some entryId =>
      match MemStorage.getEntry storage entryId with
      | None => (res 404 (Message "Entry not found"), storage)
      | Some _ =>
          match MemStorage.updateEntrySharing storage entryId false None with
          | (None, storage') =>
              (res 500 (Message "Failed to update entry"), storage')
          | (Some _, storage') =>
              (res 200 (Message "Entry is no longer shared"), storage')
          end
      end
  end.

(** What [supabase.auth.getUser(token)] resolves to: [data.user] (here the
    id of the user) and [error]. *)
Record UserResponse : Type := mkUserResponse {
  user : option string;
  error : option string
}.

(** What the middleware does with a request: it hands it on, with the
    user attached, or answers it. *)
Inductive guarded : Type :=
| Next (user : string)
| Answer (r : response).

(** [requireAuth], [authorization] being [req.headers.authorization] and
    [getUser] the verification service. *)
Definition requireAuth (authorization : option string)
  (getUser : string -> completion UserResponse) : guarded :=
  match authorization with
  | None => Answer (res 401 (Message "Authorization header is required"))
  | Some authHeader =>
      if negb (truthyStr authHeader)
      then Answer (res 401 (Message "Authorization header is required"))
      else
        match nth_error (split " " authHeader) 1 with
        | None => Answer (res 401 (Message "Access token is required"))
        | Some token =>
            if negb (truthyStr token)
            then Answer (res 401 (Message "Access token is required"))
            else
              match getUser token with
              | Throw _ => Answer (res 500 (Message "Authentication error"))
              | Return response =>
                  match error response, user response with
                  | None, Some u => Next u
                  | _, _ => Answer (res 401 (Message "Invalid or expired token"))
                  end
              end
        end
  end.

(** The requests the server answers, each with what it reads from the
    environment while it is handled. *)
Inductive request : Type :=
| GetEntries (userId : option string)
| GetEntry (id : string)
| PostEntry (body : json) (now : isoString)
| DeleteEntry (id : string)
| PostShare (id : string) (uuid : string)
| PostUnshare (id : string).

Definition handle (storage : MemStorage.t) (r : request)
  : response * MemStorage.t :=
  match r with
  | GetEntries userId => (listEntries storage userId, storage)
  | GetEntry id => (getEntry storage id, storage)
  | PostEntry body now => createEntry storage body now
  | DeleteEntry id => deleteEntry storage id
  | PostShare id uuid => shareEntry storage id uuid
  | PostUnshare id => unshareEntry storage id
  end.

(** The storage after a sequence of requests. *)
Definition serve (storage : MemStorage.t) (rs : list request) : MemStorage.t :=
  fold_left (fun s r => snd (handle s r)) rs storage.

(** The states of the server: what a sequence of requests makes of the
    storage the module exports. *)
Definition reachable (storage : MemStorage.t) : Prop :=
  exists rs, serve MemStorage.new rs = storage.
End Routes.

(** ** client/src/lib/supabase.ts *)

Module Supabase.
(** A decoded image: [img.width] and [img.height]. *)
Record Image : Type := mkImage { width : Z; height : Z }.

(** What [canvas.toBlob(cb, type, quality)] encodes: the pixels of the
    canvas in the given format. *)
Record Blob : Type := mkBlob {
  blobWidth : Z;
  blobHeight : Z;
  blobType : string;
  blobQuality : float
}.

Inductive promise (T : Type) : Type :=
| Resolve (value : T)
| Reject (error : string).
Arguments Resolve {T} value.
Arguments Reject {T} error.

(** The size given to the canvas, for a bound that is not negative (a
    canvas does not take a negative size).  [canvas.height] keeps the
    integer part of the quotient; for pixel counts of the safe range the
    quotient of doubles has the integer part of the exact quotient. *)
Definition canvasSize (img : Image) (maxWidth : Z) : Z * Z :=
  if maxWidth <? width img
  then (maxWidth, (height img * maxWidth) / width img)
  else (width img, height img).

(** [toBlob] hands [null] to its callback for a canvas without pixels or
    when the encoder fails ([encodes] is false). *)
Definition toBlob (size : Z * Z) (type : string) (quality : float)
  (encodes : bool) : option Blob :=
  if (0 <? fst size) && (0 <? snd size) && encodes
  then Some (mkBlob (fst size) (snd size) type quality)
  else None.

(** [readable] tells whether the [FileReader] loads the file and [img]
    is the picture the browser decodes from it, if it can. *)
Definition resizeAndCompressImage (readable : bool) (img : option Image)
  (encodes : bool) (maxWidth : Z) : promise Blob :=
  if readable then
    match img with
    | Some img =>
        match toBlob (canvasSize img maxWidth) "image/jpeg" 0.7%float encodes with
        | Some blob => Resolve blob
        | None => Reject "Failed to create blob"
        end
    | None => Reject "Failed to load image"
    end
  else Reject "Failed to read file".

(** [readFileAsDataURL(blob)], [dataUrl] being what the reader produces
    for the blob, if it can read it. *)
Definition readFileAsDataURL (dataUrl : option string) : promise string :=
  match dataUrl with
  | Some url => Resolve url
  | None => Reject "Failed to read file"
  end.

(** [uploadImage(file, userId)]: the data URL of the resized picture, or
    [null] when any step fails.  [dataUrlOf] is the reader of
    [readFileAsDataURL]. *)
Definition uploadImage (readable : bool) (img : option Image) (encodes : bool)
  (dataUrlOf : Blob -> option string) (userId : string) : option string :=
  match resizeAndCompressImage readable img encodes 800 with
  | Resolve optimizedImage =>
      match readFileAsDataURL (dataUrlOf optimizedImage) with
      | Resolve url => Some url
      | Reject _ => None
      end
  | Reject _ => None
  end.
End Supabase.

(** ** Vocabulary of the properties *)

Import Js.

(** An entry after a sharing update: every other field as before. *)
Definition withSharing (isShared : bool) (shareId : option string)
  (e : DiaryEntry.t) : DiaryEntry.t :=
  DiaryEntry.mk (DiaryEntry.id e) (DiaryEntry.userId e) (DiaryEntry.caption e)
    (DiaryEntry.imageUrl e) (DiaryEntry.location e) (DiaryEntry.screenInfo e)
    (DiaryEntry.createdAt e) shareId isShared.

(** The entries a storage holds, oldest insertion first. *)
Definition stored (st : MemStorage.t) : list DiaryEntry.t :=
  mapValues (MemStorage.entries st).

(** [n] calls of [createEntry] in a row, and how each ended. *)
Fixpoint createAll (st : MemStorage.t)
  (submissions : list (InsertDiaryEntry.t * isoString))
  : list (completion DiaryEntry.t) * MemStorage.t :=
  match submissions with
  | [] => ([], st)
  | (d, now) :: rest =>
      let '(r, st1) := MemStorage.createEntry st d now in
      let '(rs, st2) := createAll st1 rest in
      (r :: rs, st2)
  end.

(** The entries among the results of some calls. *)
Fixpoint returned (results : list (completion DiaryEntry.t))
  : list DiaryEntry.t :=
  match results with
  | [] => []
  | Return e :: rest => e :: returned rest
  | Throw _ :: rest => returned rest
  end.

(** A submission whose location converts without an exception. *)
Definition converts (d : InsertDiaryEntry.t) : bool :=
  match MemStorage.locationData (InsertDiaryEntry.location d) with
  | Return _ => true
  | Throw _ => false
  end.

(** The storage after a call of [createEntry] that threw. *)
Definition skipped (st : MemStorage.t) : MemStorage.t :=
  MemStorage.mk (MemStorage.entries st) (MemStorage.currentId st + 1).

(** The ids [first], [first + 1], ... ([n] of them). *)
Fixpoint idsFrom (first : Z) (n : nat) : list Z :=
  match n with
  | O => []
  | S n => first :: idsFrom (first + 1) n
  end.

(** An id that reads as a positive integer. *)
Definition isPositiveInteger (id : string) : bool :=
  match parseInt id with
  | Some n => 0 <? n
  | None => false
  end.



(** The responses to a sequence of requests, in order. *)
Fixpoint responses (st : MemStorage.t) (rs : list Routes.request)
  : list Routes.response :=
  match rs with
  | [] => []
  | r :: rest =>
      let '(resp, st1) := Routes.handle st r in
      resp :: responses st1 rest
  end.

(** The ids of the entries the 201 responses carry. *)
Fixpoint createdIds (resps : list Routes.response) : list Z :=
  match resps with
  | [] => []
  | resp :: rest =>
      match Routes.body resp with
      | Routes.Entry e =>
          if Routes.status resp =? 201
          then DiaryEntry.id e :: createdIds rest
          else createdIds rest
      | _ => createdIds rest
      end
  end.

(** The issues reported for an object, key by key. *)
Definition issuesFor (body : json) : list Zod.issue :=
  let o := Some body in
  (Zod.issuesOf (Zod.zString "userId" (getProp o "userId"))
   ++ Zod.issuesOf (Zod.zString "caption" (getProp o "caption"))
   ++ Zod.issuesOf (Zod.zString "imageUrl" (getProp o "imageUrl"))
   ++ Zod.issuesOf (Zod.zJson "screenInfo" (getProp o "screenInfo"))
   ++ Zod.issuesOf (Zod.zStringNullableOptional "shareId" (getProp o "shareId"))
   ++ Zod.issuesOf (Zod.zBooleanOptional "isShared" (getProp o "isShared"))
   ++ Zod.issuesOf (Zod.zStringOptional "captionText" (getProp o "captionText")))%list.

(** The caption a submission resolves to, given the placeholder: its
    caption, else its caption text, else the placeholder. *)
Definition resolvedCaption (placeholder : string) (d : InsertDiaryEntry.t)
  : string :=
  if truthyStr (InsertDiaryEntry.caption d) then InsertDiaryEntry.caption d
  else match InsertDiaryEntry.captionText d with
       | Some captionText =>
           if truthyStr captionText then captionText else placeholder
       | None => placeholder
       end.

(** *** Sample data *)

Definition portrait : json :=
  JObj [("width", JNum 1080%float); ("height", JNum 1920%float);
        ("orientation", JStr "Portrait")].

(** The submission of the scenario: a user and a screen, nothing else. *)
Definition bareBody : json :=
  JObj [("userId", JStr "u1"); ("screenInfo", portrait)].

(** The same with an empty caption and an empty image. *)
Definition emptyBody : json :=
  JObj [("userId", JStr "u1"); ("caption", JStr ""); ("imageUrl", JStr "");
        ("screenInfo", portrait)].


(** A submission whose latitude is an object with a property named
    toString. *)
Definition opaqueBody : json :=
  JObj [("userId", JStr "u1"); ("caption", JStr "Fuji");
        ("imageUrl", JStr "data:,");
        ("location", JObj [("lat", JObj [("toString", JNum 1%float)]);
                           ("lng", JNum 138.7274%float)]);
        ("screenInfo", portrait)].

(** A submission with a location of two floats. *)
Definition fujiBody : json :=
  JObj [("userId", JStr "u1"); ("caption", JStr "Fuji");
        ("imageUrl", JStr "data:,");
        ("location", JObj [("lat", JNum 35.3606%float); ("lng", JNum 138.7274%float)]);
        ("screenInfo", portrait)].

Definition submission (userId caption : string) : InsertDiaryEntry.t :=
  InsertDiaryEntry.mk userId caption "data:," None portrait
    (Some (Some "token")) (Some true) None.

(** A diary of two users; two entries of the first share an instant. *)
Definition diary : MemStorage.t :=
  snd (createAll MemStorage.new
         [(submission "u1" "first", 5); (submission "u2" "other", 6);
          (submission "u1" "second", 7); (submission "u1" "third", 5)]).

(** One entry is created and then shared. *)
Definition sharing : list Routes.request :=
  [Routes.PostEntry fujiBody 1000; Routes.PostShare "1" "6fa459ea"].

(** One entry is created and never shared. *)
Definition creating : list Routes.request :=
  [Routes.PostEntry fujiBody 1000].


Definition fujiEntry : DiaryEntry.t :=
  DiaryEntry.mk 1 "u1" "Fuji" "data:,"
    (Some (Location.mk (Num 35.3606%float) (Num 138.7274%float)))
    (ScreenInfo.mk (JNum 1080%float) (JNum 1920%float) (JStr "Portrait"))
    1000 None false.

(** What holds of every binding of a storage the server can be in: the
    entry carries its key, keys are positive and below the counter, and a
    share token is never the empty string. *)
Definition bindingOk (next : Z) (p : Z * DiaryEntry.t) : Prop :=
  DiaryEntry.id (snd p) = fst p /\
  1 <= fst p < next /\
  DiaryEntry.shareId (snd p) <> Some "".

Definition storageOk (st : MemStorage.t) : Prop :=
  1 <= MemStorage.currentId st /\
  NoDup (mapKeys (MemStorage.entries st)) /\
  Forall (bindingOk (MemStorage.currentId st)) (MemStorage.entries st).

(** *** Further vocabulary *)

(** What an entry shows apart from its sharing: the entry with the
    sharing fields blanked. *)
Definition content (e : DiaryEntry.t) : DiaryEntry.t := withSharing false None e.

(** An entry with a user, a caption and an image. *)
Definition complete (e : DiaryEntry.t) : Prop :=
  DiaryEntry.userId e <> "" /\
  DiaryEntry.caption e <> "" /\
  DiaryEntry.imageUrl e <> "".

(** The tokens [uuidv4()] hands to the share requests of a run are new:
    not empty and not the token of a stored entry. *)
Fixpoint freshTokens (st : MemStorage.t) (rs : list Routes.request) : Prop :=
  match rs with
  | [] => True
  | r :: rest =>
      match r with
      | Routes.PostShare _ uuid =>
          uuid <> "" /\
          forall e, In e (stored st) -> DiaryEntry.shareId e <> Some uuid
      | _ => True
      end /\
      freshTokens (snd (Routes.handle st r)) rest
  end.

(** No token is the token of two entries. *)
Definition tokensDistinct (st : MemStorage.t) : Prop :=
  forall k1 k2 e1 e2 s,
    MemStorage.getEntry st k1 = Some e1 ->
    MemStorage.getEntry st k2 = Some e2 ->
    DiaryEntry.shareId e1 = Some s ->
    DiaryEntry.shareId e2 = Some s ->
    k1 = k2.

(** The keys the insert schema reads. *)
Definition schemaKeys : list string :=
  ["userId"; "caption"; "imageUrl"; "location"; "screenInfo"; "shareId";
   "isShared"; "captionText"].

(** The value of the digits of [d] read after the value [acc]. *)
Fixpoint digitsValue (d : Decimal.uint) (acc : Z) : Z :=
  match d with
  | Decimal.Nil => acc
  | Decimal.D0 d => digitsValue d (acc * 10)
  | Decimal.D1 d => digitsValue d (acc * 10 + 1)
  | Decimal.D2 d => digitsValue d (acc * 10 + 2)
  | Decimal.D3 d => digitsValue d (acc * 10 + 3)
  | Decimal.D4 d => digitsValue d (acc * 10 + 4)
  | Decimal.D5 d => digitsValue d (acc * 10 + 5)
  | Decimal.D6 d => digitsValue d (acc * 10 + 6)
  | Decimal.D7 d => digitsValue d (acc * 10 + 7)
  | Decimal.D8 d => digitsValue d (acc * 10 + 8)
  | Decimal.D9 d => digitsValue d (acc * 10 + 9)
  end.

(** A string without the character [c]. *)
Fixpoint without (c : ascii) (s : string) : Prop :=
  match s with
  | EmptyString => True
  | String c' rest => c' <> c /\ without c rest
  end.

(** A number after [JSON.stringify] and [JSON.parse]: a finite number
    comes back as it is (negative zero as zero), any other as [null]. *)
Definition jsonNumber (x : float) : json :=
  if PrimFloat.is_finite x
  then JNum (if PrimFloat.is_zero x then PrimFloat.zero else x)
  else JNull.

(** A decimal digit, and a hexadecimal one. *)
Definition isDecimalDigit (c : ascii) : bool :=
  let n := nat_of_ascii c in ((48 <=? n) && (n <=? 57))%nat.

Definition isHexDigit (c : ascii) : bool :=
  let n := nat_of_ascii c in
  (isDecimalDigit c || (97 <=? n) && (n <=? 102) || (65 <=? n) && (n <=? 70))%nat.

(** An id that reads as a number, in the words of the amended C6: after
    leading white space and an optional sign it starts with a decimal
    digit, and where it starts with 0x or 0X a hexadecimal digit
    follows. *)
Definition readsAsNumber (id : string) : bool :=
  let s :=
    match trimStart id with
    | String c rest => if Ascii.eqb c "+" || Ascii.eqb c "-" then rest else String c rest
    | EmptyString => EmptyString
    end in
  match s with
  | String c1 (String c2 rest) =>
      if Ascii.eqb c1 "0" && (Ascii.eqb c2 "x" || Ascii.eqb c2 "X")
      then match rest with
           | String c _ => isHexDigit c
           | EmptyString => false
           end
      else isDecimalDigit c1
  | String c1 EmptyString => isDecimalDigit c1
  | EmptyString => false
  end.

(** The body the server parses when the upload page posts an entry: the
    entry data its [onSubmit] assembles from the form, the user, the data
    URL of the picture, the position (if one was taken, else [null]) and
    the screen.  [apiRequest] of [lib/queryClient] is taken to send its
    argument through [JSON.stringify], and the server to read it with
    [JSON.parse].  Each key occurs once, so the order of the keys, which
    depends on the fields the form had filled, plays no part. *)
Definition uploadBody (userId captionText imageUrl : string)
  (location : option (float * float)) (width height : float)
  (orientation : string) : json :=
  JObj [("captionText", JStr captionText);
        ("userId", JStr userId);
        ("imageUrl", JStr imageUrl);
        ("location",
         match location with
         | Some (lat, lng) => JObj [("lat", jsonNumber lat); ("lng", jsonNumber lng)]
         | None => JNull
         end);
        ("screenInfo",
         JObj [("width", jsonNumber width); ("height", jsonNumber height);
               ("orientation", JStr orientation)]);
        ("caption", JStr captionText)].

(** ** Maps *)

Section MapFacts.
Context {V : Type}.
Implicit Types (m : list (Z * V)) (k : Z) (v : V).

Lemma mapGet_set_same m k v : mapGet k (mapSet k v m) = Some v.
Proof.
  induction m as [|[k' v'] m IH]; simpl.
  - now rewrite Z.eqb_refl.
  - destruct (k =? k') eqn:E; simpl; rewrite ?E, ?Z.eqb_refl; auto.
Qed.

Lemma mapGet_set_other m k k' v :
  k' <> k -> mapGet k' (mapSet k v m) = mapGet k' m.
Proof.
  intros Hne. induction m as [|[k0 v0] m IH]; simpl.
  - apply Z.eqb_neq in Hne. now rewrite Hne.
  - destruct (k =? k0) eqn:E; simpl.
    + apply Z.eqb_eq in E. subst k0.
      apply Z.eqb_neq in Hne. now rewrite Hne.
    + now rewrite IH.
Qed.

Lemma mapGet_delete_same m k : mapGet k (mapDelete k m) = None.
Proof.
  induction m as [|[k' v'] m IH]; simpl; auto.
  destruct (k' =? k) eqn:E; simpl; auto.
  rewrite Z.eqb_sym, E. exact IH.
Qed.

Lemma mapGet_delete_other m k k' :
  k' <> k -> mapGet k' (mapDelete k m) = mapGet k' m.
Proof.
  intros Hne. induction m as [|[k0 v0] m IH]; simpl; auto.
  destruct (k0 =? k) eqn:E; simpl.
  - apply Z.eqb_eq in E. subst k0.
    apply Z.eqb_neq in Hne. now rewrite Hne.
  - now rewrite IH.
Qed.

Lemma mapGet_In m k v : mapGet k m = Some v -> In (k, v) m.
Proof.
  induction m as [|[k' v'] m IH]; simpl; [discriminate|].
  destruct (k =? k') eqn:E.
  - apply Z.eqb_eq in E. intros [= ->]. subst. now left.
  - intros H. right. auto.
Qed.

(** Setting a key that is bound rewrites its binding in place; setting
    a new key appends it. *)
Lemma mapKeys_set m k v :
  mapKeys (mapSet k v m) =
  if in_dec Z.eq_dec k (mapKeys m) then mapKeys m else (mapKeys m ++ [k])%list.
Proof.
  induction m as [|[k' v'] m IH]; simpl; auto.
  destruct (k =? k') eqn:E; simpl.
  - apply Z.eqb_eq in E. subst k'.
    destruct (Z.eq_dec k k); [|congruence]. reflexivity.
  - apply Z.eqb_neq in E. rewrite IH.
    destruct (Z.eq_dec k' k); [congruence|].
    destruct (in_dec Z.eq_dec k (mapKeys m)); reflexivity.
Qed.

Lemma NoDup_mapKeys_set m k v :
  NoDup (mapKeys m) -> NoDup (mapKeys (mapSet k v m)).
Proof.
  intros Hnd. rewrite mapKeys_set.
  destruct (in_dec Z.eq_dec k (mapKeys m)) as [Hin|Hnin]; auto.
  apply NoDup_rev in Hnd. rewrite <- (rev_involutive (_ ++ _)).
  apply NoDup_rev. rewrite rev_app_distr. simpl.
  constructor; auto. now rewrite <- in_rev.
Qed.

Lemma NoDup_mapKeys_delete m k :
  NoDup (mapKeys m) -> NoDup (mapKeys (mapDelete k m)).
Proof.
  induction m as [|[k' v'] m IH]; simpl; auto.
  intros Hnd. inversion Hnd as [|? ? Hnotin Hnd']; subst.
  destruct (k' =? k); simpl; auto.
  constructor; auto.
  intros Hin. apply Hnotin. unfold mapKeys, mapDelete in *.
  apply in_map_iff in Hin as [[a b] [Hab Hin]].
  apply filter_In in Hin as [Hin _].
  simpl in Hab. subst a. change k' with (fst (k', b)). now apply in_map.
Qed.

Lemma Forall_mapSet (P : Z * V -> Prop) m k v :
  Forall P m -> P (k, v) -> Forall P (mapSet k v m).
Proof.
  intros Hall Hp. induction m as [|[k' v'] m IH]; simpl.
  - auto.
  - inversion Hall; subst. destruct (k =? k'); constructor; auto.
Qed.

Lemma Forall_mapDelete (P : Z * V -> Prop) m k :
  Forall P m -> Forall P (mapDelete k m).
Proof.
  intros Hall. apply Forall_forall. intros p Hin.
  apply filter_In in Hin as [Hin _].
  rewrite Forall_forall in Hall. auto.
Qed.
End MapFacts.

(** ** The storage invariant *)

Section Invariant.
Import MemStorage.

Lemma storageOk_new : storageOk new.
Proof. repeat split; simpl; try lia; constructor. Qed.

Lemma bindingOk_mono next next' p :
  next <= next' -> bindingOk next p -> bindingOk next' p.
Proof. unfold bindingOk. intuition lia. Qed.

Lemma getEntry_ok st k e :
  storageOk st -> getEntry st k = Some e ->
  DiaryEntry.id e = k /\ 1 <= k < currentId st /\ DiaryEntry.shareId e <> Some "".
Proof.
  intros (_ & _ & Hall) Hget. apply mapGet_In in Hget.
  rewrite Forall_forall in Hall. exact (Hall _ Hget).
Qed.

(** The two ways a call of [createEntry] ends. *)
Lemma createEntry_cases st d now :
  (exists error,
      locationData (InsertDiaryEntry.location d) = Throw error /\
      createEntry st d now = (Throw error, skipped st)) \/
  (exists location,
      locationData (InsertDiaryEntry.location d) = Return location /\
      createEntry st d now =
      (Return (newEntry (currentId st) d location now),
       mk (mapSet (currentId st) (newEntry (currentId st) d location now) (entries st))
          (currentId st + 1))).
Proof.
  unfold createEntry.
  destruct (locationData (InsertDiaryEntry.location d)) as [location|error].
  - right. now exists location.
  - left. now exists error.
Qed.

Lemma storageOk_skipped st : storageOk st -> storageOk (skipped st).
Proof.
  intros (Hpos & Hnd & Hall). unfold storageOk, skipped. simpl.
  repeat split; [lia|exact Hnd|].
  eapply Forall_impl; [|exact Hall]. intros p. apply bindingOk_mono. lia.
Qed.

Lemma storageOk_createEntry st d now :
  storageOk st -> storageOk (snd (createEntry st d now)).
Proof.
  intros Hok.
  destruct (createEntry_cases st d now) as [(error & _ & ->)|(location & _ & ->)];
    cbn [snd].
  - now apply storageOk_skipped.
  - destruct Hok as (Hpos & Hnd & Hall).
    unfold storageOk. simpl. repeat split.
    + lia.
    + now apply NoDup_mapKeys_set.
    + apply Forall_mapSet.
      * eapply Forall_impl; [|exact Hall].
        intros p. apply bindingOk_mono. lia.
      * unfold bindingOk. simpl. repeat split; try lia. discriminate.
Qed.

Lemma orStr_not_empty a b : b <> Some "" -> orStr a b <> Some "".
Proof.
  unfold orStr. destruct a as [[|c s]|]; simpl; auto. discriminate.
Qed.

Lemma storageOk_updateEntrySharing st k b tok :
  storageOk st -> storageOk (snd (updateEntrySharing st k b tok)).
Proof.
  intros Hok. unfold updateEntrySharing.
  destruct (mapGet k (entries st)) as [e|] eqn:Hget; simpl; auto.
  destruct (getEntry_ok st k e Hok Hget) as (Hid & Hrange & Hshare).
  destruct Hok as (Hpos & Hnd & Hall).
  unfold storageOk. simpl. repeat split; auto.
  - now apply NoDup_mapKeys_set.
  - apply Forall_mapSet; auto.
    unfold bindingOk. simpl. repeat split; try lia; auto.
    now apply orStr_not_empty.
Qed.

Lemma storageOk_deleteEntry st k :
  storageOk st -> storageOk (deleteEntry st k).
Proof.
  intros (Hpos & Hnd & Hall). unfold storageOk, deleteEntry. simpl.
  repeat split; auto.
  - now apply NoDup_mapKeys_delete.
  - now apply Forall_mapDelete.
Qed.
End Invariant.

Lemma storageOk_handle st r : storageOk st -> storageOk (snd (Routes.handle st r)).
Proof.
  intros Hok. destruct r as [u|id|body now|id|id uuid|id]; cbn [Routes.handle snd]; auto.
  - unfold Routes.createEntry.
    destruct (negb _); cbn [snd]; auto.
    destruct (Zod.safeParse body) as [d|errs]; cbn [snd]; auto.
    pose proof (storageOk_createEntry st (Routes.ensureCaption d) now Hok) as H.
    destruct (MemStorage.createEntry st (Routes.ensureCaption d) now) as [[e|error] st'];
      exact H.
  - unfold Routes.deleteEntry.
    destruct (parseInt id) as [n|]; cbn [snd]; auto.
    destruct (MemStorage.getEntry st n); cbn [snd]; auto.
    now apply storageOk_deleteEntry.
  - unfold Routes.shareEntry.
    destruct (parseInt id) as [n|]; cbn [snd]; auto.
    destruct (MemStorage.getEntry st n) as [e|]; cbn [snd]; auto.
    pose proof (storageOk_updateEntrySharing st n true
                  (orStr (DiaryEntry.shareId e) (Some uuid)) Hok) as H.
    destruct (MemStorage.updateEntrySharing st n true _) as [[e'|] st']; exact H.
  - unfold Routes.unshareEntry.
    destruct (parseInt id) as [n|]; cbn [snd]; auto.
    destruct (MemStorage.getEntry st n) as [e|]; cbn [snd]; auto.
    pose proof (storageOk_updateEntrySharing st n false None Hok) as H.
    destruct (MemStorage.updateEntrySharing st n false None) as [[e'|] st']; exact H.
Qed.

Lemma storageOk_serve rs : forall st, storageOk st -> storageOk (Routes.serve st rs).
Proof.
  unfold Routes.serve.
  induction rs as [|r rs IH]; simpl; intros st Hok; auto.
  apply IH. now apply storageOk_handle.
Qed.

Lemma storageOk_reachable st : Routes.reachable st -> storageOk st.
Proof.
  intros [rs <-]. apply storageOk_serve, storageOk_new.
Qed.

(** ** Identifiers *)

Lemma sorted_lt_NoDup l : StronglySorted Z.lt l -> NoDup l.
Proof.
  induction 1 as [|a l Hs IH Hall]; constructor; auto.
  intros Hin. rewrite Forall_forall in Hall. apply Hall in Hin. lia.
Qed.

Lemma createEntry_currentId st d now :
  MemStorage.currentId (snd (MemStorage.createEntry st d now)) =
  MemStorage.currentId st + 1.
Proof.
  destruct (createEntry_cases st d now) as [(error & _ & ->)|(location & _ & ->)];
    reflexivity.
Qed.

Lemma createEntry_keeps st d now k :
  k <> MemStorage.currentId st ->
  MemStorage.getEntry (snd (MemStorage.createEntry st d now)) k =
  MemStorage.getEntry st k.
Proof.
  intros Hk.
  destruct (createEntry_cases st d now) as [(error & _ & ->)|(location & _ & ->)];
    [reflexivity|].
  unfold MemStorage.getEntry. cbn [snd MemStorage.entries].
  now apply mapGet_set_other.
Qed.

Lemma createEntry_returned st d now e :
  fst (MemStorage.createEntry st d now) = Return e ->
  DiaryEntry.id e = MemStorage.currentId st /\
  DiaryEntry.isShared e = false /\
  DiaryEntry.shareId e = None /\
  MemStorage.getEntry (snd (MemStorage.createEntry st d now)) (DiaryEntry.id e) = Some e.
Proof.
  destruct (createEntry_cases st d now) as [(error & _ & ->)|(location & _ & ->)];
    cbn [fst snd]; [discriminate|].
  intros [= <-]. repeat split.
  unfold MemStorage.getEntry. cbn [MemStorage.entries MemStorage.newEntry DiaryEntry.id].
  apply mapGet_set_same.
Qed.

Lemma createAll_cons st d now rest :
  createAll st ((d, now) :: rest) =
  (fst (MemStorage.createEntry st d now)
     :: fst (createAll (snd (MemStorage.createEntry st d now)) rest),
   snd (createAll (snd (MemStorage.createEntry st d now)) rest)).
Proof.
  cbn [createAll].
  destruct (MemStorage.createEntry st d now) as [r st1]. cbn [fst snd].
  now destruct (createAll st1 rest).
Qed.

(** The call in position [k] hands out the id [k] places after the
    counter. *)
Lemma createAll_nth submissions : forall st k e,
  nth_error (fst (createAll st submissions)) k = Some (Return e) ->
  DiaryEntry.id e = MemStorage.currentId st + Z.of_nat k.
Proof.
  induction submissions as [|[d now] rest IH]; intros st k e.
  - destruct k; discriminate.
  - rewrite createAll_cons. cbn [fst]. destruct k as [|k]; cbn [nth_error].
    + intros [= Hr]. apply createEntry_returned in Hr. lia.
    + intros Hk. apply IH in Hk. rewrite createEntry_currentId in Hk. lia.
Qed.

Lemma createAll_sorted submissions : forall st,
  StronglySorted Z.lt (map DiaryEntry.id (returned (fst (createAll st submissions)))) /\
  Forall (fun k => MemStorage.currentId st <= k)
         (map DiaryEntry.id (returned (fst (createAll st submissions)))).
Proof.
  induction submissions as [|[d now] rest IH]; intros st.
  - split; constructor.
  - rewrite createAll_cons. cbn [fst].
    destruct (IH (snd (MemStorage.createEntry st d now))) as [Hs Hb].
    rewrite createEntry_currentId in Hb.
    assert (Hb' : Forall (fun k => MemStorage.currentId st < k)
                    (map DiaryEntry.id
                       (returned (fst (createAll (snd (MemStorage.createEntry st d now)) rest))))).
    { eapply Forall_impl; [|exact Hb]. cbv beta. intros; lia. }
    destruct (fst (MemStorage.createEntry st d now)) as [e|error] eqn:Hr;
      cbn [returned map].
    + apply createEntry_returned in Hr as (Hid & _). rewrite Hid. split.
      * now constructor.
      * constructor; [lia|]. eapply Forall_impl; [|exact Hb']. cbv beta. intros; lia.
    + split; [exact Hs|]. eapply Forall_impl; [|exact Hb']. cbv beta. intros; lia.
Qed.

Lemma createAll_ids submissions : forall st,
  forallb (fun s => converts (fst s)) submissions = true ->
  map DiaryEntry.id (returned (fst (createAll st submissions))) =
  idsFrom (MemStorage.currentId st) (List.length submissions).
Proof.
  induction submissions as [|[d now] rest IH]; intros st Hall; [reflexivity|].
  cbn [forallb fst] in Hall. apply andb_true_iff in Hall as [Hd Hrest].
  rewrite createAll_cons. cbn [fst List.length idsFrom].
  specialize (IH (snd (MemStorage.createEntry st d now)) Hrest).
  rewrite createEntry_currentId in IH.
  destruct (createEntry_cases st d now) as [(error & Hloc & Hc)|(location & _ & Hc)].
  - unfold converts in Hd. rewrite Hloc in Hd. discriminate.
  - rewrite Hc in *. cbn [fst returned map MemStorage.newEntry DiaryEntry.id].
    now rewrite IH.
Qed.

Lemma createAll_keeps submissions : forall st k,
  k < MemStorage.currentId st ->
  MemStorage.getEntry (snd (createAll st submissions)) k = MemStorage.getEntry st k.
Proof.
  induction submissions as [|[d now] rest IH]; intros st k Hlt; [reflexivity|].
  rewrite createAll_cons. cbn [snd]. rewrite IH.
  - apply createEntry_keeps. lia.
  - rewrite createEntry_currentId. lia.
Qed.

Lemma createAll_stored submissions : forall st e,
  In e (returned (fst (createAll st submissions))) ->
  MemStorage.getEntry (snd (createAll st submissions)) (DiaryEntry.id e) = Some e.
Proof.
  induction submissions as [|[d now] rest IH]; intros st e; [intros []|].
  rewrite createAll_cons. cbn [fst snd].
  destruct (fst (MemStorage.createEntry st d now)) as [e0|error] eqn:Hr;
    cbn [returned]; [|now apply IH].
  intros [<-|Hin]; [|now apply IH].
  apply createEntry_returned in Hr as (Hid & _ & _ & Hget).
  rewrite createAll_keeps; [exact Hget|].
  rewrite createEntry_currentId. lia.
Qed.

Lemma createEntry_route_cases st body now :
  (exists payload,
      Routes.createEntry st body now = (Routes.res 400 payload, st) /\
      (payload = Routes.Message "User ID is required" \/
       exists errors, Zod.safeParse body = inr errors /\
                      payload = Routes.Invalid "Invalid entry data" errors)) \/
  (exists d error,
      truthyOpt (getProp (Some body) "userId") = true /\
      Zod.safeParse body = inl d /\
      MemStorage.locationData (InsertDiaryEntry.location d) = Throw error /\
      Routes.createEntry st body now =
      (Routes.res 500 (Routes.Message "Failed to create entry"), skipped st)) \/
  (exists d location,
      truthyOpt (getProp (Some body) "userId") = true /\
      Zod.safeParse body = inl d /\
      MemStorage.locationData (InsertDiaryEntry.location d) = Return location /\
      let e := MemStorage.newEntry (MemStorage.currentId st)
                 (Routes.ensureCaption d) location now in
      Routes.createEntry st body now =
      (Routes.res 201 (Routes.Entry e),
       MemStorage.mk (mapSet (MemStorage.currentId st) e (MemStorage.entries st))
         (MemStorage.currentId st + 1))).
Proof.
  unfold Routes.createEntry.
  destruct (truthyOpt (getProp (Some body) "userId")); cbn [negb].
  - destruct (Zod.safeParse body) as [d|errs].
    + right.
      assert (Hloc : InsertDiaryEntry.location (Routes.ensureCaption d) =
                     InsertDiaryEntry.location d).
      { unfold Routes.ensureCaption.
        destruct (InsertDiaryEntry.captionText d) as [ct|];
          repeat match goal with
                 | |- context [if ?c then _ else _] => destruct c
                 end; reflexivity. }
      destruct (createEntry_cases st (Routes.ensureCaption d) now)
        as [(error & Hl & ->)|(location & Hl & ->)]; rewrite Hloc in Hl.
      * left. exists d, error. repeat split. exact Hl.
      * right. exists d, location. repeat split. exact Hl.
    + left. eauto 6.
  - left. eauto.
Qed.

(** What a request does to the counter and which id it hands out. *)
Lemma handle_createdIds st r :
  (createdIds [fst (Routes.handle st r)] = [] /\
   MemStorage.currentId st <= MemStorage.currentId (snd (Routes.handle st r))) \/
  (createdIds [fst (Routes.handle st r)] = [MemStorage.currentId st] /\
   MemStorage.currentId (snd (Routes.handle st r)) = MemStorage.currentId st + 1).
Proof.
  destruct r as [u|id|body now|id|id uuid|id]; cbn [Routes.handle fst snd].
  - left. split; [|lia]. unfold Routes.listEntries.
    destruct u as [u|]; [destruct (truthyStr u)|]; reflexivity.
  - left. split; [|lia]. unfold Routes.getEntry.
    destruct (parseInt id) as [n|]; [destruct (MemStorage.getEntry st n)|]; reflexivity.
  - destruct (createEntry_route_cases st body now)
      as [(m & -> & [->|(errs & _ & ->)])|[(d & error & _ & _ & _ & ->)
                                          |(d & location & _ & _ & _ & ->)]];
      cbn [fst snd skipped MemStorage.currentId].
    + left. split; [reflexivity|lia].
    + left. split; [reflexivity|lia].
    + left. split; [reflexivity|lia].
    + right. split; reflexivity.
  - left. unfold Routes.deleteEntry.
    destruct (parseInt id) as [n|]; [destruct (MemStorage.getEntry st n)|];
      cbn; split; (reflexivity || lia).
  - left. unfold Routes.shareEntry.
    destruct (parseInt id) as [n|]; [|cbn; split; (reflexivity || lia)].
    destruct (MemStorage.getEntry st n) as [e|] eqn:Hget;
      [|cbn; split; (reflexivity || lia)].
    unfold MemStorage.updateEntrySharing. unfold MemStorage.getEntry in Hget.
    rewrite Hget. cbn. split; (reflexivity || lia).
  - left. unfold Routes.unshareEntry.
    destruct (parseInt id) as [n|]; [|cbn; split; (reflexivity || lia)].
    destruct (MemStorage.getEntry st n) as [e|] eqn:Hget;
      [|cbn; split; (reflexivity || lia)].
    unfold MemStorage.updateEntrySharing. unfold MemStorage.getEntry in Hget.
    rewrite Hget. cbn. split; (reflexivity || lia).
Qed.

Lemma createdIds_cons resp rest :
  createdIds (resp :: rest) = (createdIds [resp] ++ createdIds rest)%list.
Proof.
  cbn [createdIds]. destruct (Routes.body resp); try reflexivity.
  now destruct (Routes.status resp =? 201).
Qed.

Lemma responses_cons st r rest :
  responses st (r :: rest) =
  fst (Routes.handle st r) :: responses (snd (Routes.handle st r)) rest.
Proof. cbn [responses]. now destruct (Routes.handle st r). Qed.

Lemma responses_sorted rs : forall st,
  StronglySorted Z.lt (createdIds (responses st rs)) /\
  Forall (fun k => MemStorage.currentId st <= k) (createdIds (responses st rs)).
Proof.
  induction rs as [|r rs IH]; intros st; [split; constructor|].
  rewrite responses_cons, createdIds_cons.
  destruct (IH (snd (Routes.handle st r))) as [Hs Hb].
  destruct (handle_createdIds st r) as [[-> Hcur]|[-> Hcur]]; cbn [app].
  - split; [exact Hs|]. eapply Forall_impl; [|exact Hb]. cbv beta. intros; lia.
  - rewrite Hcur in Hb. split.
    + constructor; [exact Hs|]. eapply Forall_impl; [|exact Hb]. cbv beta. intros; lia.
    + constructor; [lia|]. eapply Forall_impl; [|exact Hb]. cbv beta. intros; lia.
Qed.

(** C8. On a new storage the call of [createEntry] in position k (from
    0) hands out the id k + 1, so that the ids of the entries returned are
    strictly increasing, without repeats, and are 1, 2, ..., N when each
    of the N calls returns; each returned entry is found under its id
    afterwards.  The ids the server hands out, other requests coming in
    between, are strictly increasing and at least 1, and whatever the
    server has been asked, the entry found under an id carries that id. *)
Theorem sequential_ids_increase :
  (forall submissions : list (InsertDiaryEntry.t * isoString),
      let results := fst (createAll MemStorage.new submissions) in
      let final := snd (createAll MemStorage.new submissions) in
      (forall k e, nth_error results k = Some (Return e) ->
                   DiaryEntry.id e = Z.of_nat k + 1) /\
      StronglySorted Z.lt (map DiaryEntry.id (returned results)) /\
      NoDup (map DiaryEntry.id (returned results)) /\
      (forallb (fun s => converts (fst s)) submissions = true ->
       map DiaryEntry.id (returned results) = idsFrom 1 (List.length submissions)) /\
      (forall e, In e (returned results) ->
                 MemStorage.getEntry final (DiaryEntry.id e) = Some e)) /\
  (forall rs : list Routes.request,
      let ids := createdIds (responses MemStorage.new rs) in
      StronglySorted Z.lt ids /\
      Forall (fun k => 1 <= k) ids /\
      forall k e, MemStorage.getEntry (Routes.serve MemStorage.new rs) k = Some e ->
                  DiaryEntry.id e = k).
Proof.
  split.
  - intros submissions results final. subst results final.
    split; [|split; [|split; [|split]]].
    + intros k e Hk. apply createAll_nth in Hk.
      cbn [MemStorage.currentId MemStorage.new] in Hk. lia.
    + apply createAll_sorted.
    + apply sorted_lt_NoDup, createAll_sorted.
    + apply (createAll_ids submissions MemStorage.new).
    + apply createAll_stored.
  - intros rs ids. subst ids.
    destruct (responses_sorted rs MemStorage.new) as [Hs Hb].
    split; [exact Hs|]. split; [exact Hb|].
    intros k e Hget.
    apply (getEntry_ok _ k e (storageOk_serve rs _ storageOk_new) Hget).
Qed.

(** ** Deleting *)

(** C9. For an id that reads as the number [n]: when no entry is stored
    under [n] the delete request answers 404 and changes nothing;
    otherwise it answers 200 and removes the entry, leaving the others,
    after which fetching the id answers 404 and deleting it again answers
    404. *)
Theorem delete_then_not_found :
  forall (st : MemStorage.t) (id : string) (n : Z),
    parseInt id = Some n ->
    (MemStorage.getEntry st n = None ->
     Routes.deleteEntry st id = (Routes.res 404 (Routes.Message "Entry not found"), st)) /\
    (forall e, MemStorage.getEntry st n = Some e ->
       let st' := snd (Routes.deleteEntry st id) in
       Routes.status (fst (Routes.deleteEntry st id)) = 200 /\
       MemStorage.getEntry st' n = None /\
       (forall k, k <> n -> MemStorage.getEntry st' k = MemStorage.getEntry st k) /\
       Routes.getEntry st' id = Routes.res 404 (Routes.Message "Entry not found") /\
       Routes.deleteEntry st' id =
         (Routes.res 404 (Routes.Message "Entry not found"), st')).
Proof.
  intros st id n Hparse. split.
  - intros Hnone. unfold Routes.deleteEntry. now rewrite Hparse, Hnone.
  - intros e Hsome st'.
    assert (Hst' : st' = MemStorage.deleteEntry st n).
    { subst st'. unfold Routes.deleteEntry. now rewrite Hparse, Hsome. }
    assert (Hgone : MemStorage.getEntry st' n = None).
    { rewrite Hst'. apply mapGet_delete_same. }
    repeat split.
    + unfold Routes.deleteEntry. now rewrite Hparse, Hsome.
    + exact Hgone.
    + intros k Hk. rewrite Hst'. now apply mapGet_delete_other.
    + unfold Routes.getEntry. now rewrite Hparse, Hgone.
    + unfold Routes.deleteEntry. now rewrite Hparse, Hgone.
Qed.

(** ** Creation leaves entries unshared *)

(** C10. The entry a call of [createEntry] returns is unshared and has no
    share token, whatever the submission holds in [isShared] and
    [shareId], and it is the entry stored under its id; so is every entry
    the create request answers with; and a share token found in the
    storage after a create request was there before it. *)
Theorem created_entry_is_unshared :
  (forall (st : MemStorage.t) (d : InsertDiaryEntry.t) (now : isoString),
      match fst (MemStorage.createEntry st d now) with
      | Return e =>
          DiaryEntry.isShared e = false /\
          DiaryEntry.shareId e = None /\
          MemStorage.getEntry (snd (MemStorage.createEntry st d now)) (DiaryEntry.id e)
          = Some e
      | Throw _ => True
      end) /\
  (forall (st : MemStorage.t) (body : json) (now : isoString),
      match Routes.body (fst (Routes.createEntry st body now)) with
      | Routes.Entry e => DiaryEntry.isShared e = false /\ DiaryEntry.shareId e = None
      | _ => True
      end) /\
  (forall (st : MemStorage.t) (body : json) (now : isoString) k e s,
      MemStorage.getEntry (snd (Routes.createEntry st body now)) k = Some e ->
      DiaryEntry.shareId e = Some s ->
      MemStorage.getEntry st k = Some e).
Proof.
  split; [|split].
  - intros st d now.
    destruct (fst (MemStorage.createEntry st d now)) as [e|error] eqn:Hr; [|exact I].
    apply createEntry_returned in Hr. tauto.
  - intros st body now.
    destruct (createEntry_route_cases st body now)
      as [(m & -> & [->|(errs & _ & ->)])|[(d & error & _ & _ & _ & ->)
                                          |(d & location & _ & _ & _ & ->)]];
      cbn [fst Routes.body]; auto.
  - intros st body now k e s.
    destruct (createEntry_route_cases st body now)
      as [(m & -> & _)|[(d & error & _ & _ & _ & ->)
                       |(d & location & _ & _ & _ & ->)]];
      cbn [snd]; auto.
    unfold MemStorage.getEntry. cbn [MemStorage.entries].
    destruct (Z.eq_dec k (MemStorage.currentId st)) as [->|Hne].
    + rewrite mapGet_set_same. intros [= <-]. discriminate.
    + rewrite mapGet_set_other by exact Hne. auto.
Qed.

(** ** Lookup by share token *)

(** C4. [getEntryByShareId] returns an entry exactly when a stored entry
    has this token and is shared, and what it returns is such an entry;
    it returns [undefined] exactly when every stored entry with this token
    (if there is one at all) has sharing disabled: an unknown token and
    the token of an unshared entry get the same answer. *)
Theorem share_token_lookup :
  forall (st : MemStorage.t) (token : string),
    (forall e, MemStorage.getEntryByShareId st token = Some e ->
               In e (stored st) /\
               DiaryEntry.shareId e = Some token /\
               DiaryEntry.isShared e = true) /\
    ((exists e, MemStorage.getEntryByShareId st token = Some e) <->
     (exists e, In e (stored st) /\
                DiaryEntry.shareId e = Some token /\
                DiaryEntry.isShared e = true)) /\
    (MemStorage.getEntryByShareId st token = None <->
     (forall e, In e (stored st) ->
                DiaryEntry.shareId e = Some token ->
                DiaryEntry.isShared e = false)).
Proof.
  intros st token.
  assert (Hmatch : forall e,
             (MemStorage.shareIdIs token e && DiaryEntry.isShared e = true) <->
             (DiaryEntry.shareId e = Some token /\ DiaryEntry.isShared e = true)).
  { intros e. unfold MemStorage.shareIdIs. rewrite andb_true_iff.
    destruct (DiaryEntry.shareId e) as [s|].
    - rewrite String.eqb_eq. split; intros [H1 H2]; split; congruence.
    - split; intros [H1 H2]; discriminate. }
  assert (Hsound : forall e, MemStorage.getEntryByShareId st token = Some e ->
             In e (stored st) /\
             DiaryEntry.shareId e = Some token /\ DiaryEntry.isShared e = true).
  { intros e Hfind. apply find_some in Hfind as [Hin Hp].
    split; [exact Hin|]. now apply Hmatch. }
  split; [exact Hsound|]. split.
  - split.
    + intros [e Hfind]. exists e. now apply Hsound.
    + intros [e (Hin & Hs & Hsh)].
      destruct (MemStorage.getEntryByShareId st token) as [e'|] eqn:Hfind; eauto.
      pose proof (find_none _ _ Hfind e Hin) as Hno.
      assert (Hyes : MemStorage.shareIdIs token e && DiaryEntry.isShared e = true)
        by now apply Hmatch.
      simpl in Hno. congruence.
  - split.
    + intros Hnone e Hin Hs.
      pose proof (find_none _ _ Hnone e Hin) as Hno. simpl in Hno.
      destruct (DiaryEntry.isShared e) eqn:Hsh; auto.
      assert (Hyes : MemStorage.shareIdIs token e && DiaryEntry.isShared e = true)
        by (apply Hmatch; auto).
      rewrite Hsh in Hyes. congruence.
    + intros Hall.
      destruct (MemStorage.getEntryByShareId st token) as [e|] eqn:Hfind; auto.
      destruct (Hsound e eq_refl) as (Hin & Hs & Hsh).
      rewrite (Hall e Hin Hs) in Hsh. discriminate.
Qed.

(** ** The share token of an entry *)

Lemma updateEntrySharing_found st k b tok e :
  MemStorage.getEntry st k = Some e ->
  MemStorage.updateEntrySharing st k b tok =
  (Some (withSharing b (orStr tok (DiaryEntry.shareId e)) e),
   MemStorage.mk
     (mapSet k (withSharing b (orStr tok (DiaryEntry.shareId e)) e)
        (MemStorage.entries st))
     (MemStorage.currentId st)).
Proof.
  unfold MemStorage.getEntry, MemStorage.updateEntrySharing.
  intros ->. reflexivity.
Qed.

Lemma shareEntry_found st id uuid k e :
  parseInt id = Some k -> MemStorage.getEntry st k = Some e ->
  let shareId := orStr (orStr (DiaryEntry.shareId e) (Some uuid)) (DiaryEntry.shareId e) in
  Routes.shareEntry st id uuid =
  (Routes.res 200 (Routes.Shared "Entry shared successfully" shareId
                     (Routes.shareUrlOf shareId)),
   MemStorage.mk (mapSet k (withSharing true shareId e) (MemStorage.entries st))
     (MemStorage.currentId st)).
Proof.
  intros Hparse Hget. unfold Routes.shareEntry.
  rewrite Hparse, Hget, (updateEntrySharing_found _ _ _ _ _ Hget). reflexivity.
Qed.

Lemma unshareEntry_found st id k e :
  parseInt id = Some k -> MemStorage.getEntry st k = Some e ->
  Routes.unshareEntry st id =
  (Routes.res 200 (Routes.Message "Entry is no longer shared"),
   MemStorage.mk
     (mapSet k (withSharing false (DiaryEntry.shareId e) e) (MemStorage.entries st))
     (MemStorage.currentId st)).
Proof.
  intros Hparse Hget. unfold Routes.unshareEntry.
  rewrite Hparse, Hget, (updateEntrySharing_found _ _ _ _ _ Hget). reflexivity.
Qed.

Lemma orStr_keeps s tok : s <> "" -> orStr (orStr (Some s) tok) (Some s) = Some s.
Proof. destruct s; [congruence|reflexivity]. Qed.

Lemma orStr_fresh uuid : uuid <> "" -> orStr (orStr None (Some uuid)) None = Some uuid.
Proof. destruct uuid; [congruence|reflexivity]. Qed.

(** A request leaves the share token of an entry that has one as it is,
    as long as the entry exists. *)
Lemma handle_keeps_shareId st r n e s e' :
  storageOk st ->
  MemStorage.getEntry st n = Some e -> DiaryEntry.shareId e = Some s ->
  MemStorage.getEntry (snd (Routes.handle st r)) n = Some e' ->
  DiaryEntry.shareId e' = Some s.
Proof.
  intros Hok Hget Hs.
  destruct (getEntry_ok st n e Hok Hget) as (_ & Hrange & Hne).
  assert (Hs' : s <> "") by congruence.
  destruct r as [u|id|body now|id|id uuid|id]; cbn [Routes.handle snd].
  - congruence.
  - congruence.
  - destruct (createEntry_route_cases st body now)
      as [(m & -> & _)|[(d & error & _ & _ & _ & ->)
                       |(d & location & _ & _ & _ & ->)]];
      cbn [snd]; [congruence|unfold MemStorage.getEntry in *; cbn; congruence|].
    unfold MemStorage.getEntry. cbn [MemStorage.entries].
    rewrite mapGet_set_other by lia. unfold MemStorage.getEntry in Hget. congruence.
  - unfold Routes.deleteEntry.
    destruct (parseInt id) as [k|]; cbn [snd]; [|congruence].
    destruct (MemStorage.getEntry st k); cbn [snd]; [|congruence].
    unfold MemStorage.deleteEntry, MemStorage.getEntry. cbn [MemStorage.entries].
    destruct (Z.eq_dec n k) as [->|Hnk].
    + now rewrite mapGet_delete_same.
    + rewrite mapGet_delete_other by exact Hnk.
      unfold MemStorage.getEntry in Hget. congruence.
  - unfold Routes.shareEntry at 1.
    destruct (parseInt id) as [k|] eqn:Hparse; cbn [snd]; [|congruence].
    destruct (MemStorage.getEntry st k) as [e0|] eqn:Hget0; cbn [snd]; [|congruence].
    rewrite (updateEntrySharing_found _ _ _ _ _ Hget0).
    unfold MemStorage.getEntry. cbn [snd MemStorage.entries].
    destruct (Z.eq_dec n k) as [->|Hnk].
    + rewrite mapGet_set_same. intros [= <-].
      assert (e0 = e) by congruence. subst e0.
      cbn [withSharing DiaryEntry.shareId]. rewrite Hs. now apply orStr_keeps.
    + rewrite mapGet_set_other by exact Hnk.
      unfold MemStorage.getEntry in Hget. congruence.
  - unfold Routes.unshareEntry at 1.
    destruct (parseInt id) as [k|] eqn:Hparse; cbn [snd]; [|congruence].
    destruct (MemStorage.getEntry st k) as [e0|] eqn:Hget0; cbn [snd]; [|congruence].
    rewrite (updateEntrySharing_found _ _ _ _ _ Hget0).
    unfold MemStorage.getEntry. cbn [snd MemStorage.entries].
    destruct (Z.eq_dec n k) as [->|Hnk].
    + rewrite mapGet_set_same. intros [= <-].
      assert (e0 = e) by congruence. subst e0.
      cbn [withSharing DiaryEntry.shareId]. exact Hs.
    + rewrite mapGet_set_other by exact Hnk.
      unfold MemStorage.getEntry in Hget. congruence.
Qed.

(** C3. In every state of the server, for an entry stored under [n]:
    if it has a share token [s], no request makes the token null or
    changes it while the entry exists, and no sharing update of the
    storage makes it null; the unshare request clears [isShared] and
    nothing else; the share request answers with [s] and sets [isShared],
    whatever token the generator would give.  If it has no token, the
    share request stores the generated one and the unshare request stores
    none. *)
Theorem shareId_is_kept :
  forall (rs : list Routes.request) (n : Z) (e : DiaryEntry.t),
    let st := Routes.serve MemStorage.new rs in
    MemStorage.getEntry st n = Some e ->
    (forall s, DiaryEntry.shareId e = Some s ->
       (forall r e',
           MemStorage.getEntry (snd (Routes.handle st r)) n = Some e' ->
           DiaryEntry.shareId e' = Some s) /\
       (forall b tok, exists e',
             fst (MemStorage.updateEntrySharing st n b tok) = Some e' /\
             DiaryEntry.shareId e' <> None) /\
       (forall id, parseInt id = Some n ->
           MemStorage.getEntry (snd (Routes.unshareEntry st id)) n
           = Some (withSharing false (Some s) e)) /\
       (forall id uuid, parseInt id = Some n ->
           fst (Routes.shareEntry st id uuid)
           = Routes.res 200 (Routes.Shared "Entry shared successfully"
                               (Some s) ("/shared/" ++ s)) /\
           MemStorage.getEntry (snd (Routes.shareEntry st id uuid)) n
           = Some (withSharing true (Some s) e))) /\
    (DiaryEntry.shareId e = None ->
     forall id uuid, parseInt id = Some n -> uuid <> "" ->
       MemStorage.getEntry (snd (Routes.shareEntry st id uuid)) n
       = Some (withSharing true (Some uuid) e) /\
       MemStorage.getEntry (snd (Routes.unshareEntry st id)) n
       = Some (withSharing false None e)).
Proof.
  intros rs n e st Hget.
  assert (Hok : storageOk st) by (apply storageOk_serve, storageOk_new).
  destruct (getEntry_ok st n e Hok Hget) as (_ & _ & Hne).
  split.
  - intros s Hs. assert (Hs' : s <> "") by congruence.
    repeat split.
    + intros r e'. now apply handle_keeps_shareId with (e := e).
    + intros b tok. rewrite (updateEntrySharing_found _ _ _ _ _ Hget).
      eexists. split; [reflexivity|]. cbn [withSharing DiaryEntry.shareId].
      rewrite Hs. unfold orStr. destruct (truthyOptStr tok) eqn:Htok.
      * destruct tok; [discriminate|discriminate].
      * discriminate.
    + intros id Hparse. rewrite (unshareEntry_found _ _ _ _ Hparse Hget).
      unfold MemStorage.getEntry. cbn [snd MemStorage.entries].
      rewrite mapGet_set_same, Hs. reflexivity.
    + rewrite (shareEntry_found _ _ _ _ _ H Hget). cbn [fst].
      rewrite Hs, orStr_keeps by exact Hs'. reflexivity.
    + rewrite (shareEntry_found _ _ _ _ _ H Hget).
      unfold MemStorage.getEntry. cbn [snd MemStorage.entries].
      rewrite mapGet_set_same, Hs, orStr_keeps by exact Hs'. reflexivity.
  - intros Hnone id uuid Hparse Huuid. split.
    + rewrite (shareEntry_found _ _ _ _ _ Hparse Hget).
      unfold MemStorage.getEntry. cbn [snd MemStorage.entries].
      rewrite mapGet_set_same, Hnone, orStr_fresh by exact Huuid. reflexivity.
    + rewrite (unshareEntry_found _ _ _ _ Hparse Hget).
      unfold MemStorage.getEntry. cbn [snd MemStorage.entries].
      rewrite mapGet_set_same, Hnone. reflexivity.
Qed.

(** ** Sorting by a key, largest first *)

Section SortFacts.
Context {A : Type} (key : A -> Z) (cmp : A -> A -> Z).
Hypothesis cmp_key : forall a b, cmp a b = key b - key a.

Lemma insert_perm x l : Permutation (insert cmp x l) (x :: l).
Proof.
  induction l as [|y l IH]; simpl; auto.
  destruct (0 <? cmp x y); auto.
  rewrite IH. apply perm_swap.
Qed.

Lemma sort_perm l : Permutation (sort cmp l) l.
Proof.
  induction l as [|x l IH]; simpl; auto.
  rewrite insert_perm. now constructor.
Qed.

Lemma insert_sorted x l :
  StronglySorted (fun a b => key b <= key a) l ->
  StronglySorted (fun a b => key b <= key a) (insert cmp x l).
Proof.
  induction 1 as [|y l Hs IH Hall]; simpl.
  - repeat constructor.
  - destruct (0 <? cmp x y) eqn:E; rewrite cmp_key in E.
    + apply Z.ltb_lt in E. constructor; auto.
      rewrite Forall_forall in *. intros z Hz.
      apply (Permutation_in _ (insert_perm x l)) in Hz.
      destruct Hz as [<-|Hz]; auto. lia.
    + apply Z.ltb_ge in E. constructor.
      * now constructor.
      * constructor; [lia|].
        rewrite Forall_forall in *. intros z Hz.
        specialize (Hall z Hz). cbv beta in Hall. lia.
Qed.

Lemma sort_sorted l : StronglySorted (fun a b => key b <= key a) (sort cmp l).
Proof.
  induction l as [|x l IH]; simpl; [constructor|]. now apply insert_sorted.
Qed.

(** Insertion never moves an element past one of the same key. *)
Lemma insert_stable t x l :
  filter (fun a => key a =? t) (insert cmp x l) =
  filter (fun a => key a =? t) (x :: l).
Proof.
  induction l as [|y l IH]; [reflexivity|].
  cbn [insert]. destruct (0 <? cmp x y) eqn:E; [|reflexivity].
  rewrite cmp_key in E. apply Z.ltb_lt in E. cbn [filter] in *. rewrite IH.
  destruct (key x =? t) eqn:Ex, (key y =? t) eqn:Ey; try reflexivity.
  apply Z.eqb_eq in Ex, Ey. lia.
Qed.

Lemma sort_stable t l :
  filter (fun a => key a =? t) (sort cmp l) = filter (fun a => key a =? t) l.
Proof.
  induction l as [|x l IH]; [reflexivity|].
  cbn [sort]. rewrite insert_stable. cbn [filter]. now rewrite IH.
Qed.
End SortFacts.

(** C7. Listing the entries of a user gives the stored entries of that
    user and no other (each as often as it is stored), the newest first;
    entries created at the same instant come in the order in which they
    were inserted; a user without entries gets the empty list, and the
    request answers 200 with this list for every non-empty user id. *)
Theorem entries_of_user_sorted :
  forall (st : MemStorage.t) (u : string),
    let result := MemStorage.getEntriesByUserId st u in
    let mine := filter (fun e => String.eqb (DiaryEntry.userId e) u) (stored st) in
    Permutation result mine /\
    (forall e, In e result <-> In e (stored st) /\ DiaryEntry.userId e = u) /\
    StronglySorted
      (fun a b => getTime (DiaryEntry.createdAt b) <= getTime (DiaryEntry.createdAt a))
      result /\
    (forall t,
        filter (fun e => getTime (DiaryEntry.createdAt e) =? t) result =
        filter (fun e => getTime (DiaryEntry.createdAt e) =? t) mine) /\
    (mine = [] -> result = []) /\
    (truthyStr u = true ->
     Routes.listEntries st (Some u) = Routes.res 200 (Routes.Entries result)).
Proof.
  intros st u result mine.
  pose (key := fun e => getTime (DiaryEntry.createdAt e)).
  assert (Hkey : forall a b, MemStorage.byCreatedAtDesc a b = key b - key a)
    by reflexivity.
  assert (Hperm : Permutation result mine) by apply sort_perm.
  split; [exact Hperm|]. split; [|split; [|split; [|split]]].
  - intros e. split.
    + intros Hin. apply (Permutation_in _ Hperm) in Hin.
      apply filter_In in Hin as [Hin Hu]. now apply String.eqb_eq in Hu.
    + intros [Hin Hu]. apply (Permutation_in _ (Permutation_sym Hperm)).
      apply filter_In. split; [exact Hin|]. now apply String.eqb_eq.
  - apply (sort_sorted key _ Hkey).
  - intros t. apply (sort_stable key _ Hkey).
  - subst result. unfold MemStorage.getEntriesByUserId. fold (stored st). fold mine.
    now intros ->.
  - intros Hu. unfold Routes.listEntries. now rewrite Hu.
Qed.

(** ** What a request does to the storage *)

Lemma handle_storage st r :
  snd (Routes.handle st r) = st \/
  snd (Routes.handle st r) = skipped st \/
  (exists e, snd (Routes.handle st r) =
             MemStorage.mk (mapSet (MemStorage.currentId st) e (MemStorage.entries st))
               (MemStorage.currentId st + 1)) \/
  (exists k e e', MemStorage.getEntry st k = Some e /\
                  snd (Routes.handle st r) =
                  MemStorage.mk (mapSet k e' (MemStorage.entries st))
                    (MemStorage.currentId st)) \/
  (exists k, snd (Routes.handle st r) = MemStorage.deleteEntry st k).
Proof.
  destruct r as [u|id|body now|id|id uuid|id]; cbn [Routes.handle snd]; auto.
  - destruct (createEntry_route_cases st body now)
      as [(p & -> & _)|[(d & err & _ & _ & _ & ->)|(d & loc & _ & _ & _ & ->)]];
      cbn [snd]; [now left|now right; left|right; right; left; eauto].
  - unfold Routes.deleteEntry. destruct (parseInt id) as [k|]; [|now left].
    destruct (MemStorage.getEntry st k); cbn [snd]; [|now left].
    right. right. right. right. eauto.
  - destruct (parseInt id) as [k|] eqn:Hparse;
      [|unfold Routes.shareEntry; rewrite Hparse; auto].
    destruct (MemStorage.getEntry st k) as [e|] eqn:Hget;
      [|unfold Routes.shareEntry; rewrite Hparse, Hget; auto].
    rewrite (shareEntry_found st id uuid k e Hparse Hget). cbn [snd].
    right. right. right. left. eauto.
  - destruct (parseInt id) as [k|] eqn:Hparse;
      [|unfold Routes.unshareEntry; rewrite Hparse; auto].
    destruct (MemStorage.getEntry st k) as [e|] eqn:Hget;
      [|unfold Routes.unshareEntry; rewrite Hparse, Hget; auto].
    rewrite (unshareEntry_found st id k e Hparse Hget). cbn [snd].
    right. right. right. left. eauto.
Qed.

Lemma handle_currentId st r :
  MemStorage.currentId st <= MemStorage.currentId (snd (Routes.handle st r))
  <= MemStorage.currentId st + 1.
Proof.
  destruct (handle_storage st r)
    as [->|[->|[(e & ->)|[(k & e & e' & _ & ->)|(k & ->)]]]];
    cbn [skipped MemStorage.deleteEntry MemStorage.currentId]; lia.
Qed.

Lemma serve_currentId rs : forall st,
  MemStorage.currentId st <= MemStorage.currentId (Routes.serve st rs)
  <= MemStorage.currentId st + Z.of_nat (List.length rs).
Proof.
  induction rs as [|r rs IH]; intros st.
  - cbn. lia.
  - change (Routes.serve st (r :: rs)) with (Routes.serve (snd (Routes.handle st r)) rs).
    specialize (IH (snd (Routes.handle st r))).
    pose proof (handle_currentId st r). cbn [List.length]. lia.
Qed.

Lemma handle_absent st r n :
  n < MemStorage.currentId st -> MemStorage.getEntry st n = None ->
  MemStorage.getEntry (snd (Routes.handle st r)) n = None.
Proof.
  intros Hn Hget.
  destruct (handle_storage st r)
    as [->|[->|[(e & ->)|[(k & e & e' & Hk & ->)|(k & ->)]]]]; auto;
    unfold MemStorage.getEntry in *;
    cbn [skipped MemStorage.deleteEntry MemStorage.entries].
  - rewrite mapGet_set_other by lia. exact Hget.
  - rewrite mapGet_set_other; [exact Hget|]. intros ->. congruence.
  - destruct (Z.eq_dec n k) as [->|Hne].
    + apply mapGet_delete_same.
    + rewrite mapGet_delete_other by exact Hne. exact Hget.
Qed.

Lemma serve_absent rs : forall st n,
  n < MemStorage.currentId st -> MemStorage.getEntry st n = None ->
  MemStorage.getEntry (Routes.serve st rs) n = None.
Proof.
  induction rs as [|r rs IH]; intros st n Hn Hget; [exact Hget|].
  change (Routes.serve st (r :: rs)) with (Routes.serve (snd (Routes.handle st r)) rs).
  apply IH.
  - pose proof (handle_currentId st r). lia.
  - now apply handle_absent.
Qed.

(** ** Ids in the path of a request *)

Lemma readDigits_seen r s : forall acc, readDigits r s acc true <> None.
Proof.
  induction s as [|c s IH]; intros acc; cbn [readDigits]; [discriminate|].
  destruct (digitValue r c); [apply IH|discriminate].
Qed.

Lemma readDigits_start r s :
  readDigits r s 0 false = None <->
  match s with
  | String c _ => digitValue r c = None
  | EmptyString => True
  end.
Proof.
  destruct s as [|c s]; cbn [readDigits]; [tauto|].
  destruct (digitValue r c) as [d|]; [|tauto].
  split; [intros H; now apply readDigits_seen in H|discriminate].
Qed.

Ltac each_char c := destruct c as [[] [] [] [] [] [] [] []].

Lemma digitValue_decimal c : digitValue 10 c = None <-> isDecimalDigit c = false.
Proof. each_char c; vm_compute; split; congruence. Qed.

Lemma digitValue_hex c : digitValue 16 c = None <-> isHexDigit c = false.
Proof. each_char c; vm_compute; split; congruence. Qed.

Lemma stripSign_rest s :
  snd (stripSign s) =
  match s with
  | String c rest => if Ascii.eqb c "+" || Ascii.eqb c "-" then rest else String c rest
  | EmptyString => EmptyString
  end.
Proof. destruct s as [|c s]; [reflexivity|]. each_char c; reflexivity. Qed.

Lemma stripHexPrefix_cases s :
  stripHexPrefix s =
  match s with
  | String c1 (String c2 rest) =>
      if Ascii.eqb c1 "0" && (Ascii.eqb c2 "x" || Ascii.eqb c2 "X")
      then (16, rest) else (10, s)
  | _ => (10, s)
  end.
Proof.
  destruct s as [|c1 [|c2 rest]]; [reflexivity| |].
  - each_char c1; reflexivity.
  - each_char c1; try reflexivity. each_char c2; reflexivity.
Qed.

Lemma parseInt_nan id : parseInt id = None <-> readsAsNumber id = false.
Proof.
  unfold parseInt, readsAsNumber.
  rewrite <- stripSign_rest.
  destruct (stripSign (trimStart id)) as [sign s]. cbn [snd].
  rewrite stripHexPrefix_cases.
  assert (H : forall r s', match readDigits r s' 0 false with
                           | Some n => Some (sign * n)
                           | None => None
                           end = None <-> readDigits r s' 0 false = None).
  { intros r s'. destruct (readDigits r s' 0 false); split; congruence. }
  destruct s as [|c1 [|c2 rest]].
  - rewrite H, readDigits_start. split; auto.
  - rewrite H, readDigits_start. apply digitValue_decimal.
  - destruct (Ascii.eqb c1 "0" && (Ascii.eqb c2 "x" || Ascii.eqb c2 "X")).
    + rewrite H, readDigits_start. destruct rest as [|c rest]; [split; auto|].
      apply digitValue_hex.
    + rewrite H, readDigits_start. apply digitValue_decimal.
Qed.

Example parseInt_digits : parseInt "9999" = Some 9999.
Proof. reflexivity. Qed.

Example parseInt_letters : parseInt "abc" = None.
Proof. reflexivity. Qed.

Example parseInt_prefix : parseInt "12abc" = Some 12.
Proof. reflexivity. Qed.

Example parseInt_negative : parseInt " -5" = Some (-5).
Proof. reflexivity. Qed.

Example parseInt_hex : parseInt "0x1f" = Some 31.
Proof. reflexivity. Qed.

(** C6, as stated, fails: the id "0" does not read as a positive integer,
    and the request for it is answered 404, not 400. *)
Lemma zero_id_is_not_found :
  isPositiveInteger "0" = false /\
  Routes.getEntry MemStorage.new "0" = Routes.res 404 (Routes.Message "Entry not found") /\
  ~ (forall (st : MemStorage.t) (id : string),
        isPositiveInteger id = false ->
        Routes.status (Routes.getEntry st id) = 400).
Proof.
  split; [reflexivity|]. split; [reflexivity|].
  intros H. specialize (H MemStorage.new "0" eq_refl). discriminate H.
Qed.

(** C6, amended. The request for an entry is answered 400 exactly when
    [parseInt] gives NaN for the id, which is when the id, after leading
    white space and an optional sign, does not start with a decimal
    digit, or starts with 0x or 0X and no hexadecimal digit follows.  An
    id that reads as a safe integer is answered 404 when nothing is
    stored under that integer, 200 with the entry otherwise; in every
    state of the server an id that reads as zero, as a negative integer
    or as an integer not below the counter is answered 404, and so is,
    after fewer than 2^53 requests, every id that reads as an integer
    beyond the safe ones. *)
Theorem bad_request_iff_not_a_number :
  forall (st : MemStorage.t) (id : string),
    (Routes.status (Routes.getEntry st id) = 400 <-> parseInt id = None) /\
    (parseInt id = None <-> readsAsNumber id = false) /\
    (parseInt id = None ->
     Routes.getEntry st id = Routes.res 400 (Routes.Message "Invalid entry ID")) /\
    (forall n, parseInt id = Some n ->
       (isSafeInteger n = true ->
        (MemStorage.getEntry st n = None ->
         Routes.getEntry st id = Routes.res 404 (Routes.Message "Entry not found")) /\
        (forall e, MemStorage.getEntry st n = Some e ->
                   Routes.getEntry st id = Routes.res 200 (Routes.Entry e))) /\
       (Routes.reachable st -> n <= 0 \/ MemStorage.currentId st <= n ->
        Routes.getEntry st id = Routes.res 404 (Routes.Message "Entry not found")) /\
       (forall rs, st = Routes.serve MemStorage.new rs ->
                   Z.of_nat (List.length rs) < 2 ^ 53 ->
                   isSafeInteger n = false ->
                   Routes.getEntry st id =
                   Routes.res 404 (Routes.Message "Entry not found"))).
Proof.
  intros st id.
  assert (Hout : forall n, Routes.reachable st ->
                           n <= 0 \/ MemStorage.currentId st <= n ->
                           MemStorage.getEntry st n = None).
  { intros n Hreach Hn.
    destruct (MemStorage.getEntry st n) as [e|] eqn:Hget; [|reflexivity].
    apply storageOk_reachable in Hreach.
    destruct (getEntry_ok st n e Hreach Hget) as (_ & Hrange & _). lia. }
  split; [|split; [apply parseInt_nan|]]; unfold Routes.getEntry;
    destruct (parseInt id) as [n|] eqn:Hparse.
  - destruct (MemStorage.getEntry st n); cbn; split; discriminate.
  - cbn. split; auto.
  - split; [discriminate|].
    intros n' [= <-]. split; [|split].
    + intros _. split; [now intros ->|now intros e ->].
    + intros Hreach Hn. now rewrite (Hout n Hreach Hn).
    + intros rs -> Hlen Hsafe.
      rewrite (Hout n); [reflexivity|now exists rs|].
      pose proof (serve_currentId rs MemStorage.new) as Hcur.
      change (MemStorage.currentId MemStorage.new) with 1 in Hcur.
      unfold isSafeInteger in Hsafe. apply andb_false_iff in Hsafe.
      destruct Hsafe as [Hsafe|Hsafe]; apply Z.ltb_ge in Hsafe; lia.
  - split; [reflexivity|discriminate].
Qed.

(** ** Validation of a submission *)

Section Validation.
Import Zod.






Lemma zString_inl p v s : zString p v = inl s -> v = Some (JStr s).
Proof. destruct v as [[]|]; simpl; intros [= <-]; reflexivity. Qed.

Lemma zJson_inl p v j : zJson p v = inl j -> v = Some j.
Proof. destruct v; simpl; intros [= <-]; reflexivity. Qed.

Ltac split_checks :=
  repeat match goal with
         | |- context [match ?c with inl _ => _ | inr _ => _ end] =>
             let E := fresh "E" in destruct c eqn:E
         end.

Lemma safeParse_issues body errors :
  safeParse body = inr errors ->
  (errors = [InvalidType "" "object"] /\ getProp (Some body) "userId" = None) \/
  (errors = issuesFor body /\ errors <> []).
Proof.
  unfold safeParse, issuesFor, zJsonNullableOptional.
  destruct body; try (intros [= <-]; left; split; reflexivity).
  cbv zeta. split_checks; intros [= <-]; right; split;
    cbn [issuesOf app]; try reflexivity; discriminate.
Qed.

Lemma safeParse_data body d :
  safeParse body = inl d ->
  let o := Some body in
  getProp o "userId" = Some (JStr (InsertDiaryEntry.userId d)) /\
  getProp o "caption" = Some (JStr (InsertDiaryEntry.caption d)) /\
  getProp o "imageUrl" = Some (JStr (InsertDiaryEntry.imageUrl d)) /\
  getProp o "location" = InsertDiaryEntry.location d /\
  getProp o "screenInfo" = Some (InsertDiaryEntry.screenInfo d).
Proof.
  unfold safeParse, zJsonNullableOptional.
  destruct body; try discriminate.
  cbv zeta. split_checks; intros [= <-]; cbn [InsertDiaryEntry.userId
    InsertDiaryEntry.caption InsertDiaryEntry.imageUrl
    InsertDiaryEntry.location InsertDiaryEntry.screenInfo].
  repeat match goal with
         | H : zString _ _ = inl _ |- _ => apply zString_inl in H
         | H : zJson _ _ = inl _ |- _ => apply zJson_inl in H
         | H : inl _ = inl _ |- _ => injection H as <-
         end.
  repeat split; assumption || reflexivity.
Qed.

End Validation.

(** ** The location of a submission *)


Lemma ensureCaption_location d :
  InsertDiaryEntry.location (Routes.ensureCaption d) = InsertDiaryEntry.location d.
Proof.
  unfold Routes.ensureCaption.
  destruct (InsertDiaryEntry.captionText d) as [ct|];
    destruct (truthyStr (InsertDiaryEntry.caption d)); cbn [negb andb];
    try destruct (truthyStr ct); reflexivity.
Qed.


(** ** Defaults of a submission *)

(** C1, as stated, fails: the submission of the scenario, with a user and
    a screen and neither caption nor image, is rejected with 400 and
    nothing is stored; and when the caption and the image are sent empty
    the entry is created with the placeholder image but with a caption
    other than "My travel memory". *)
Lemma bare_submission_is_rejected :
  getProp (Some bareBody) "caption" = None /\
  getProp (Some bareBody) "captionText" = None /\
  getProp (Some bareBody) "imageUrl" = None /\
  Routes.createEntry MemStorage.new bareBody 0 =
  (Routes.res 400
     (Routes.Invalid "Invalid entry data"
        [Zod.Required "caption"; Zod.Required "imageUrl"]),
   MemStorage.new) /\
  exists e st',
    Routes.createEntry MemStorage.new emptyBody 0 = (Routes.res 201 (Routes.Entry e), st') /\
    DiaryEntry.imageUrl e = MemStorage.defaultImageUrl /\
    DiaryEntry.caption e <> "My travel memory".
Proof.
  repeat (split; [reflexivity|]).
  eexists. eexists. split; [reflexivity|]. split; [reflexivity|].
  cbn. discriminate.
Qed.

Lemma ensureCaption_caption d :
  InsertDiaryEntry.caption (Routes.ensureCaption d) =
  resolvedCaption Routes.fallbackCaption d.
Proof.
  unfold Routes.ensureCaption, resolvedCaption.
  destruct (InsertDiaryEntry.captionText d) as [ct|];
    destruct (truthyStr (InsertDiaryEntry.caption d)); cbn [negb andb];
    try destruct (truthyStr ct); reflexivity.
Qed.

Lemma ensureCaption_imageUrl d :
  InsertDiaryEntry.imageUrl (Routes.ensureCaption d) = InsertDiaryEntry.imageUrl d.
Proof.
  unfold Routes.ensureCaption.
  destruct (InsertDiaryEntry.captionText d) as [ct|];
    destruct (truthyStr (InsertDiaryEntry.caption d)); cbn [negb andb];
    try destruct (truthyStr ct); reflexivity.
Qed.

Lemma resolvedCaption_truthy p d :
  truthyStr p = true -> truthyStr (resolvedCaption p d) = true.
Proof.
  intros Hp. unfold resolvedCaption.
  destruct (truthyStr (InsertDiaryEntry.caption d)) eqn:Hc; auto.
  destruct (InsertDiaryEntry.captionText d) as [ct|]; auto.
  destruct (truthyStr ct) eqn:Hct; auto.
Qed.

(** C1, amended. There is a fixed, non-empty placeholder caption such
    that every submission with a truthy user id that passes validation,
    and whose location converts, is created and stored with: its caption
    when that is not empty, else its caption text when that is present
    and not empty, else the placeholder; its image when that is not
    empty, else the fixed 1x1 placeholder image.  A submission with a
    truthy user id in which the caption or the image is absent is
    rejected with 400 and a list of issues, and nothing is stored. *)
Theorem caption_and_image_defaults :
  exists placeholder : string,
    placeholder <> "" /\
    forall (st : MemStorage.t) (body : json) (now : isoString),
      truthyOpt (getProp (Some body) "userId") = true ->
      (forall d, Zod.safeParse body = inl d -> converts d = true ->
         exists e st',
           Routes.createEntry st body now = (Routes.res 201 (Routes.Entry e), st') /\
           MemStorage.getEntry st' (DiaryEntry.id e) = Some e /\
           DiaryEntry.caption e = resolvedCaption placeholder d /\
           DiaryEntry.imageUrl e =
           (if truthyStr (InsertDiaryEntry.imageUrl d)
            then InsertDiaryEntry.imageUrl d
            else MemStorage.defaultImageUrl)) /\
      (getProp (Some body) "caption" = None \/
       getProp (Some body) "imageUrl" = None ->
       exists errors,
         errors <> [] /\
         Routes.createEntry st body now =
         (Routes.res 400 (Routes.Invalid "Invalid entry data" errors), st)).
Proof.
  exists Routes.fallbackCaption. split; [discriminate|].
  intros st body now Huser. split.
  - intros d Hparse Hconv.
    unfold Routes.createEntry. rewrite Huser, Hparse. cbn [negb].
    unfold converts in Hconv.
    destruct (createEntry_cases st (Routes.ensureCaption d) now)
      as [(error & Hl & ->)|(location & Hl & ->)];
      rewrite ensureCaption_location in Hl; rewrite Hl in Hconv; [discriminate|].
    eexists. eexists. split; [reflexivity|]. split; [|split].
    + unfold MemStorage.getEntry. cbn [MemStorage.entries MemStorage.newEntry DiaryEntry.id].
      apply mapGet_set_same.
    + cbn [MemStorage.newEntry DiaryEntry.caption]. rewrite ensureCaption_caption.
      unfold MemStorage.orDefault. now rewrite resolvedCaption_truthy.
    + cbn [MemStorage.newEntry DiaryEntry.imageUrl].
      now rewrite ensureCaption_imageUrl.
  - intros Habsent. unfold Routes.createEntry. rewrite Huser. cbn [negb].
    destruct (Zod.safeParse body) as [d|errors] eqn:Hparse.
    + destruct (safeParse_data body d Hparse) as (_ & Hc & Hi & _).
      destruct Habsent as [H|H]; congruence.
    + exists errors. split; [|reflexivity].
      destruct (safeParse_issues body errors Hparse) as [[-> _]|[_ Hne]];
        [discriminate|exact Hne].
Qed.

(** ** The size of a resized image *)

(** C2, as stated, fails: a picture 400 wide and 2000 high is within the
    bound 800 in width, keeps its size, and is encoded with a larger
    dimension of 2000. *)
Lemma tall_image_exceeds_bound :
  Supabase.canvasSize (Supabase.mkImage 400 2000) 800 = (400, 2000) /\
  Supabase.resizeAndCompressImage true (Some (Supabase.mkImage 400 2000)) true 800 =
  Supabase.Resolve (Supabase.mkBlob 400 2000 "image/jpeg" 0.7%float) /\
  ~ Z.max 400 2000 <= 800.
Proof.
  split; [reflexivity|]. split; [reflexivity|]. cbn. lia.
Qed.

(** C2, amended. The width of the output does not exceed [maxWidth].  A
    picture whose width is within the bound keeps its size, whatever its
    height; a wider one gets the width [maxWidth] and its height scaled
    by the same factor, rounded down to whole pixels.  For a picture at
    least as wide as high the larger dimension of the output does not
    exceed [maxWidth].  In both cases what is returned, whenever the
    canvas has pixels and the encoder succeeds, is a JPEG of quality 0.7
    of that size: a picture that keeps its size is encoded again. *)
Theorem resize_bounds_width :
  forall (img : Supabase.Image) (maxWidth : Z),
    0 < Supabase.width img -> 0 <= Supabase.height img -> 0 <= maxWidth ->
    let w := fst (Supabase.canvasSize img maxWidth) in
    let h := snd (Supabase.canvasSize img maxWidth) in
    w <= maxWidth /\
    (Supabase.width img <= maxWidth ->
     w = Supabase.width img /\ h = Supabase.height img) /\
    (maxWidth < Supabase.width img ->
     w = maxWidth /\
     h * Supabase.width img <= Supabase.height img * maxWidth
       < (h + 1) * Supabase.width img) /\
    (Supabase.height img <= Supabase.width img -> Z.max w h <= maxWidth) /\
    (forall encodes blob,
        Supabase.resizeAndCompressImage true (Some img) encodes maxWidth
        = Supabase.Resolve blob ->
        blob = Supabase.mkBlob w h "image/jpeg" 0.7%float) /\
    (0 < w -> 0 < h ->
     Supabase.resizeAndCompressImage true (Some img) true maxWidth
     = Supabase.Resolve (Supabase.mkBlob w h "image/jpeg" 0.7%float)).
Proof.
  intros [iw ih] m Hw Hh Hm w h. subst w h.
  unfold Supabase.resizeAndCompressImage, Supabase.toBlob, Supabase.canvasSize.
  cbn [Supabase.width Supabase.height] in *.
  destruct (m <? iw) eqn:E; cbn [fst snd].
  - apply Z.ltb_lt in E.
    pose proof (Z.mul_div_le (ih * m) iw Hw) as Hlo.
    pose proof (Z.mul_succ_div_gt (ih * m) iw Hw) as Hhi.
    repeat split; try lia.
    + intros Hwide. apply Z.max_lub; [lia|].
      apply Z.div_le_upper_bound; [exact Hw|]. nia.
    + intros encodes blob.
      destruct ((0 <? m) && (0 <? ih * m / iw) && encodes); intros [= <-]; reflexivity.
    + intros H1 H2. apply Z.ltb_lt in H1, H2. now rewrite H1, H2.
  - apply Z.ltb_ge in E. repeat split; try lia.
    + intros encodes blob.
      destruct ((0 <? iw) && (0 <? ih) && encodes); intros [= <-]; reflexivity.
    + intros H1 H2. apply Z.ltb_lt in H1, H2. now rewrite H1, H2.
Qed.

(** ** The properties at sample inputs *)

Example diary_of_u1 :
  map DiaryEntry.id (MemStorage.getEntriesByUserId diary "u1") = [3; 1; 4].
Proof. reflexivity. Qed.

Example opaque_latitude_fails :
  Routes.createEntry MemStorage.new opaqueBody 1000 =
  (Routes.res 500 (Routes.Message "Failed to create entry"), MemStorage.mk [] 2).
Proof. reflexivity. Qed.

Example id_after_a_failure :
  createdIds (responses MemStorage.new
                [Routes.PostEntry opaqueBody 1000; Routes.PostEntry fujiBody 1001]) = [2].
Proof. reflexivity. Qed.

Example fuji_is_created :
  Routes.serve MemStorage.new creating = MemStorage.mk [(1, fujiEntry)] 2.
Proof. reflexivity. Qed.

Lemma caption_and_image_defaults_witness :
  exists placeholder e st',
    placeholder <> "" /\
    Routes.createEntry MemStorage.new emptyBody 0 = (Routes.res 201 (Routes.Entry e), st') /\
    DiaryEntry.caption e = placeholder /\
    DiaryEntry.imageUrl e = MemStorage.defaultImageUrl /\
    exists errors,
      Routes.createEntry MemStorage.new bareBody 0 =
      (Routes.res 400 (Routes.Invalid "Invalid entry data" errors), MemStorage.new).
Proof.
  destruct caption_and_image_defaults as (p & Hp & H).
  destruct (H MemStorage.new emptyBody 0 eq_refl) as [Hcreate _].
  destruct (Hcreate (InsertDiaryEntry.mk "u1" "" "" None portrait None None None)
              eq_refl eq_refl)
    as (e & st' & H1 & _ & H3 & H4).
  destruct (H MemStorage.new bareBody 0 eq_refl) as [_ Hreject].
  destruct (Hreject (or_introl eq_refl)) as (errors & _ & H5).
  exists p, e, st'. repeat split; try assumption. exists errors. exact H5.
Defined.

Lemma resize_bounds_width_witness :
  fst (Supabase.canvasSize (Supabase.mkImage 1600 1200) 800) = 800 /\
  Z.max (fst (Supabase.canvasSize (Supabase.mkImage 1600 1200) 800))
        (snd (Supabase.canvasSize (Supabase.mkImage 1600 1200) 800)) <= 800 /\
  Supabase.resizeAndCompressImage true (Some (Supabase.mkImage 1600 1200)) true 800 =
  Supabase.Resolve (Supabase.mkBlob 800 600 "image/jpeg" 0.7%float).
Proof.
  assert (H1 : 0 < Supabase.width (Supabase.mkImage 1600 1200)) by reflexivity.
  assert (H2 : 0 <= Supabase.height (Supabase.mkImage 1600 1200)) by (cbn; lia).
  assert (H3 : 0 <= 800) by lia.
  destruct (resize_bounds_width (Supabase.mkImage 1600 1200) 800 H1 H2 H3)
    as (_ & _ & Hwide & Hmax & _ & Hblob).
  split; [apply Hwide; reflexivity|].
  split; [apply Hmax; cbn; lia|].
  apply Hblob; reflexivity.
Defined.

Lemma shareId_is_kept_witness :
  exists e,
    MemStorage.getEntry (Routes.serve MemStorage.new sharing) 1 = Some e /\
    DiaryEntry.shareId e = Some "6fa459ea" /\
    MemStorage.getEntry
      (snd (Routes.unshareEntry (Routes.serve MemStorage.new sharing) "1")) 1
    = Some (withSharing false (Some "6fa459ea") e) /\
    fst (Routes.shareEntry (Routes.serve MemStorage.new sharing) "1" "another")
    = Routes.res 200 (Routes.Shared "Entry shared successfully"
                        (Some "6fa459ea") "/shared/6fa459ea") /\
    MemStorage.getEntry
      (snd (Routes.shareEntry (Routes.serve MemStorage.new creating) "1" "6fa459ea")) 1
    = Some (withSharing true (Some "6fa459ea") fujiEntry).
Proof.
  exists (withSharing true (Some "6fa459ea") fujiEntry).
  destruct (shareId_is_kept sharing 1 (withSharing true (Some "6fa459ea") fujiEntry) eq_refl)
    as [Hsome _].
  destruct (Hsome "6fa459ea" eq_refl) as (_ & _ & Hunshare & Hshare).
  destruct (shareId_is_kept creating 1 fujiEntry eq_refl) as [_ Hnone].
  split; [reflexivity|]. split; [reflexivity|].
  split; [exact (Hunshare "1" eq_refl)|].
  split; [exact (proj1 (Hshare "1" "another" eq_refl))|].
  refine (proj1 (Hnone eq_refl "1" "6fa459ea" eq_refl _)). discriminate.
Defined.

Lemma share_token_lookup_witness :
  (exists e, MemStorage.getEntryByShareId (Routes.serve MemStorage.new sharing) "6fa459ea"
             = Some e) /\
  MemStorage.getEntryByShareId (Routes.serve MemStorage.new creating) "6fa459ea" = None.
Proof.
  split.
  - apply (proj1 (proj2 (share_token_lookup (Routes.serve MemStorage.new sharing) "6fa459ea"))).
    exists (withSharing true (Some "6fa459ea") fujiEntry).
    split; [left; reflexivity|]. split; reflexivity.
  - apply (proj2 (proj2 (share_token_lookup (Routes.serve MemStorage.new creating) "6fa459ea"))).
    intros e [<-|[]]. discriminate.
Defined.


Lemma bad_request_iff_not_a_number_witness :
  Routes.getEntry MemStorage.new "abc" = Routes.res 400 (Routes.Message "Invalid entry ID") /\
  Routes.getEntry MemStorage.new "0x" = Routes.res 400 (Routes.Message "Invalid entry ID") /\
  Routes.getEntry MemStorage.new "9999" = Routes.res 404 (Routes.Message "Entry not found") /\
  Routes.getEntry MemStorage.new "-5" = Routes.res 404 (Routes.Message "Entry not found") /\
  Routes.getEntry (Routes.serve MemStorage.new creating) "1" =
  Routes.res 200 (Routes.Entry fujiEntry) /\
  Routes.getEntry (Routes.serve MemStorage.new creating) "9007199254740993" =
  Routes.res 404 (Routes.Message "Entry not found").
Proof.
  destruct (bad_request_iff_not_a_number MemStorage.new "abc") as (_ & _ & Hnan & _).
  destruct (bad_request_iff_not_a_number MemStorage.new "0x") as (_ & Hwords & Hhex & _).
  destruct (bad_request_iff_not_a_number MemStorage.new "9999") as (_ & _ & _ & Hbig).
  destruct (bad_request_iff_not_a_number MemStorage.new "-5") as (_ & _ & _ & Hneg).
  destruct (bad_request_iff_not_a_number (Routes.serve MemStorage.new creating) "1")
    as (_ & _ & _ & Hone).
  destruct (bad_request_iff_not_a_number (Routes.serve MemStorage.new creating)
              "9007199254740993") as (_ & _ & _ & Hfar).
  destruct (Hbig 9999 eq_refl) as (Hsafe & _ & _).
  destruct (Hneg (-5) eq_refl) as (_ & Hbelow & _).
  destruct (Hone 1 eq_refl) as (Hstored & _ & _).
  destruct (Hfar 9007199254740993 eq_refl) as (_ & _ & Hbeyond).
  split; [apply Hnan; reflexivity|].
  split; [apply Hhex, Hwords; reflexivity|].
  split; [apply (proj1 (Hsafe eq_refl)); reflexivity|].
  split; [apply Hbelow; [exists []; reflexivity|lia]|].
  split; [apply (proj2 (Hstored eq_refl)); reflexivity|].
  apply (Hbeyond creating eq_refl); [cbn; lia|reflexivity].
Defined.

Lemma entries_of_user_sorted_witness :
  MemStorage.getEntriesByUserId diary "nobody" = [] /\
  Routes.listEntries diary (Some "u1") =
  Routes.res 200 (Routes.Entries (MemStorage.getEntriesByUserId diary "u1")) /\
  forall e, In e (MemStorage.getEntriesByUserId diary "u1") -> DiaryEntry.userId e = "u1".
Proof.
  destruct (entries_of_user_sorted diary "nobody") as (_ & _ & _ & _ & Hempty & _).
  destruct (entries_of_user_sorted diary "u1") as (_ & Hin & _ & _ & _ & Hroute).
  split; [apply Hempty; reflexivity|].
  split; [apply Hroute; reflexivity|].
  intros e He. apply Hin in He. exact (proj2 He).
Defined.

Lemma sequential_ids_increase_witness :
  DiaryEntry.id (MemStorage.newEntry 3 (submission "u1" "second") None 7) = 3 /\
  map DiaryEntry.id (stored diary) = [1; 2; 3; 4] /\
  DiaryEntry.id fujiEntry = 1.
Proof.
  destruct sequential_ids_increase as [Hstorage Hserver].
  destruct (Hstorage [(submission "u1" "first", 5); (submission "u2" "other", 6);
                      (submission "u1" "second", 7); (submission "u1" "third", 5)])
    as (Hnth & _ & _ & Hall & _).
  split; [exact (Hnth 2%nat _ eq_refl)|].
  split; [exact (Hall eq_refl)|].
  destruct (Hserver creating) as (_ & _ & Hid). exact (Hid 1 fujiEntry eq_refl).
Defined.

Lemma delete_then_not_found_witness :
  Routes.deleteEntry MemStorage.new "1" =
  (Routes.res 404 (Routes.Message "Entry not found"), MemStorage.new) /\
  Routes.status (fst (Routes.deleteEntry (Routes.serve MemStorage.new creating) "1")) = 200 /\
  Routes.deleteEntry (snd (Routes.deleteEntry (Routes.serve MemStorage.new creating) "1")) "1" =
  (Routes.res 404 (Routes.Message "Entry not found"),
   snd (Routes.deleteEntry (Routes.serve MemStorage.new creating) "1")).
Proof.
  destruct (delete_then_not_found MemStorage.new "1" 1 eq_refl) as [Habsent _].
  destruct (delete_then_not_found (Routes.serve MemStorage.new creating) "1" 1 eq_refl)
    as [_ Hpresent].
  destruct (Hpresent fujiEntry eq_refl) as (H200 & _ & _ & _ & Hagain).
  split; [apply Habsent; reflexivity|]. split; [exact H200|exact Hagain].
Defined.

Lemma created_entry_is_unshared_witness :
  MemStorage.getEntry (Routes.serve MemStorage.new sharing) 1 =
  Some (withSharing true (Some "6fa459ea") fujiEntry).
Proof.
  destruct created_entry_is_unshared as (_ & _ & Hbefore).
  apply (Hbefore (Routes.serve MemStorage.new sharing) fujiBody 2000 1
           (withSharing true (Some "6fa459ea") fujiEntry) "6fa459ea");
    reflexivity.
Defined.

(** ** What a request changes *)

Lemma mapSet_new {V : Type} (m : list (Z * V)) k v :
  ~ In k (mapKeys m) -> mapSet k v m = (m ++ [(k, v)])%list.
Proof.
  induction m as [|[k' v'] m IH]; simpl; auto.
  intros H. destruct (k =? k') eqn:E.
  - apply Z.eqb_eq in E. subst. tauto.
  - f_equal. apply IH. tauto.
Qed.

Lemma mapSet_same {V : Type} (m : list (Z * V)) k v :
  mapGet k m = Some v -> mapSet k v m = m.
Proof.
  induction m as [|[k' v'] m IH]; simpl; [discriminate|].
  destruct (k =? k') eqn:E.
  - apply Z.eqb_eq in E. subst. now intros [= ->].
  - intros H. f_equal. auto.
Qed.

Lemma mapSet_set {V : Type} (m : list (Z * V)) k v v' :
  mapSet k v' (mapSet k v m) = mapSet k v' m.
Proof.
  induction m as [|[k' v0] m IH]; simpl.
  - now rewrite Z.eqb_refl.
  - destruct (k =? k') eqn:E; simpl; rewrite ?E, ?Z.eqb_refl; congruence.
Qed.

Lemma mapKeys_set_bound {V : Type} (m : list (Z * V)) k v v0 :
  mapGet k m = Some v0 -> mapKeys (mapSet k v m) = mapKeys m.
Proof.
  induction m as [|[k' v'] m IH]; simpl; [discriminate|].
  destruct (k =? k') eqn:E; simpl.
  - apply Z.eqb_eq in E. now subst.
  - intros H. f_equal. auto.
Qed.

Lemma mapGet_bound {V : Type} (m : list (Z * V)) k v :
  NoDup (mapKeys m) -> In (k, v) m -> mapGet k m = Some v.
Proof.
  induction m as [|[k' v'] m IH]; simpl; [tauto|].
  intros Hnd [Heq|Hin].
  - injection Heq as -> ->. now rewrite Z.eqb_refl.
  - inversion Hnd as [|? ? Hnotin Hnd']; subst.
    destruct (k =? k') eqn:E.
    + apply Z.eqb_eq in E. subst k'. exfalso. apply Hnotin.
      change k with (fst (k, v)). now apply in_map.
    + auto.
Qed.

Lemma counter_is_free st :
  storageOk st -> ~ In (MemStorage.currentId st) (mapKeys (MemStorage.entries st)).
Proof.
  intros (_ & _ & Hall) Hin.
  apply in_map_iff in Hin as [[k e] [Hk Hin]]. simpl in Hk. subst k.
  rewrite Forall_forall in Hall. apply Hall in Hin.
  destruct Hin as (_ & Hlt & _). simpl in Hlt. lia.
Qed.

(** X1. In every state of the server a create request has one of three
    effects: it is answered 400 and the storage is as before; or 500, and
    only the counter has advanced; or 201 with an entry that carries the
    old counter as id and the instant of the request, and then the storage
    holds the old bindings in their order followed by the new one. *)
Theorem create_request_effect :
  forall (rs : list Routes.request) (body : json) (now : isoString),
    let st := Routes.serve MemStorage.new rs in
    let resp := fst (Routes.createEntry st body now) in
    let st' := snd (Routes.createEntry st body now) in
    (Routes.status resp = 400 /\ st' = st) \/
    (resp = Routes.res 500 (Routes.Message "Failed to create entry") /\
     st' = skipped st) \/
    (exists e,
        resp = Routes.res 201 (Routes.Entry e) /\
        DiaryEntry.id e = MemStorage.currentId st /\
        DiaryEntry.createdAt e = now /\
        MemStorage.entries st' =
        (MemStorage.entries st ++ [(MemStorage.currentId st, e)])%list /\
        MemStorage.currentId st' = MemStorage.currentId st + 1).
Proof.
  intros rs body now st resp st'. subst resp st'.
  assert (Hok : storageOk st) by (apply storageOk_serve, storageOk_new).
  destruct (createEntry_route_cases st body now)
    as [(m & -> & _)|[(d & error & _ & _ & _ & ->)
                     |(d & location & _ & _ & _ & ->)]]; cbn [fst snd].
  - left. split; reflexivity.
  - right. left. split; reflexivity.
  - right. right. eexists. split; [reflexivity|].
    cbn [MemStorage.newEntry DiaryEntry.id DiaryEntry.createdAt
           MemStorage.entries MemStorage.currentId].
    repeat split. apply mapSet_new. now apply counter_is_free.
Qed.

(** X2. A request answered 400 or 404 leaves the storage as it was. *)
Theorem refused_request_changes_nothing :
  forall (st : MemStorage.t) (r : Routes.request),
    Routes.status (fst (Routes.handle st r)) = 400 \/
    Routes.status (fst (Routes.handle st r)) = 404 ->
    snd (Routes.handle st r) = st.
Proof.
  intros st r.
  destruct r as [u|id|body now|id|id uuid|id]; cbn [Routes.handle fst snd]; auto.
  - destruct (createEntry_route_cases st body now)
      as [(m & -> & _)|[(d & error & _ & _ & _ & ->)
                       |(d & location & _ & _ & _ & ->)]]; cbn [fst snd Routes.status].
    + reflexivity.
    + intros [H|H]; discriminate.
    + intros [H|H]; discriminate.
  - unfold Routes.deleteEntry.
    destruct (parseInt id) as [n|]; [|reflexivity].
    destruct (MemStorage.getEntry st n); [|reflexivity].
    cbn. intros [H|H]; discriminate.
  - unfold Routes.shareEntry.
    destruct (parseInt id) as [n|]; [|reflexivity].
    destruct (MemStorage.getEntry st n) as [e|] eqn:Hget; [|reflexivity].
    rewrite (updateEntrySharing_found _ _ _ _ _ Hget). cbn.
    intros [H|H]; discriminate.
  - unfold Routes.unshareEntry.
    destruct (parseInt id) as [n|]; [|reflexivity].
    destruct (MemStorage.getEntry st n) as [e|] eqn:Hget; [|reflexivity].
    rewrite (updateEntrySharing_found _ _ _ _ _ Hget). cbn.
    intros [H|H]; discriminate.
Qed.

Lemma refused_request_changes_nothing_witness :
  snd (Routes.handle diary (Routes.PostShare "17" "6fa459ea")) = diary /\
  snd (Routes.handle diary (Routes.PostEntry bareBody 9)) = diary.
Proof.
  split.
  - apply refused_request_changes_nothing. right. reflexivity.
  - apply refused_request_changes_nothing. left. reflexivity.
Defined.

(** X3. In every state of the server, as long as an entry exists no
    request changes anything of it but its sharing: id, user, caption,
    image, location, screen and creation instant stay what they were. *)
Theorem entries_are_immutable :
  forall (rs : list Routes.request) (r : Routes.request) (n : Z)
         (e e' : DiaryEntry.t),
    let st := Routes.serve MemStorage.new rs in
    MemStorage.getEntry st n = Some e ->
    MemStorage.getEntry (snd (Routes.handle st r)) n = Some e' ->
    content e' = content e.
Proof.
  intros rs r n e e' st Hget.
  assert (Hok : storageOk st) by (apply storageOk_serve, storageOk_new).
  destruct (getEntry_ok st n e Hok Hget) as (_ & Hrange & _).
  destruct r as [u|id|body now|id|id uuid|id]; cbn [Routes.handle snd].
  - congruence.
  - congruence.
  - destruct (createEntry_route_cases st body now)
      as [(m & -> & _)|[(d & error & _ & _ & _ & ->)
                       |(d & location & _ & _ & _ & ->)]];
      cbn [snd]; [congruence|unfold MemStorage.getEntry in *; cbn; congruence|].
    unfold MemStorage.getEntry. cbn [MemStorage.entries].
    rewrite mapGet_set_other by lia. unfold MemStorage.getEntry in Hget. congruence.
  - unfold Routes.deleteEntry.
    destruct (parseInt id) as [k|]; cbn [snd]; [|congruence].
    destruct (MemStorage.getEntry st k); cbn [snd]; [|congruence].
    unfold MemStorage.deleteEntry, MemStorage.getEntry. cbn [MemStorage.entries].
    destruct (Z.eq_dec n k) as [->|Hnk].
    + now rewrite mapGet_delete_same.
    + rewrite mapGet_delete_other by exact Hnk.
      unfold MemStorage.getEntry in Hget. congruence.
  - unfold Routes.shareEntry.
    destruct (parseInt id) as [k|] eqn:Hparse; cbn [snd]; [|congruence].
    destruct (MemStorage.getEntry st k) as [e0|] eqn:Hget0; cbn [snd]; [|congruence].
    rewrite (updateEntrySharing_found _ _ _ _ _ Hget0).
    unfold MemStorage.getEntry. cbn [snd MemStorage.entries].
    destruct (Z.eq_dec n k) as [->|Hnk].
    + rewrite mapGet_set_same. intros [= <-].
      assert (e0 = e) by congruence. subst e0. reflexivity.
    + rewrite mapGet_set_other by exact Hnk.
      unfold MemStorage.getEntry in Hget. congruence.
  - unfold Routes.unshareEntry.
    destruct (parseInt id) as [k|] eqn:Hparse; cbn [snd]; [|congruence].
    destruct (MemStorage.getEntry st k) as [e0|] eqn:Hget0; cbn [snd]; [|congruence].
    rewrite (updateEntrySharing_found _ _ _ _ _ Hget0).
    unfold MemStorage.getEntry. cbn [snd MemStorage.entries].
    destruct (Z.eq_dec n k) as [->|Hnk].
    + rewrite mapGet_set_same. intros [= <-].
      assert (e0 = e) by congruence. subst e0. reflexivity.
    + rewrite mapGet_set_other by exact Hnk.
      unfold MemStorage.getEntry in Hget. congruence.
Qed.

Lemma entries_are_immutable_witness :
  content (withSharing true (Some "6fa459ea") fujiEntry) = content fujiEntry.
Proof.
  apply (entries_are_immutable creating (Routes.PostShare "1" "6fa459ea") 1);
    reflexivity.
Defined.

(** ** What every stored entry has *)

Lemma truthyStr_not_empty s : truthyStr s = true -> s <> "".
Proof. destruct s; [discriminate|discriminate]. Qed.

Lemma orDefault_not_empty a b : b <> "" -> MemStorage.orDefault a b <> "".
Proof.
  unfold MemStorage.orDefault. destruct a; simpl; [auto|discriminate].
Qed.

Lemma ensureCaption_userId d :
  InsertDiaryEntry.userId (Routes.ensureCaption d) = InsertDiaryEntry.userId d.
Proof.
  unfold Routes.ensureCaption.
  destruct (InsertDiaryEntry.captionText d) as [ct|];
    destruct (truthyStr (InsertDiaryEntry.caption d)); cbn [negb andb];
    try destruct (truthyStr ct); reflexivity.
Qed.

Lemma complete_handle st r :
  Forall (fun p => complete (snd p)) (MemStorage.entries st) ->
  Forall (fun p => complete (snd p)) (MemStorage.entries (snd (Routes.handle st r))).
Proof.
  intros Hall.
  destruct r as [u|id|body now|id|id uuid|id]; cbn [Routes.handle snd]; auto.
  - destruct (createEntry_route_cases st body now)
      as [(m & -> & _)|[(d & error & _ & _ & _ & ->)
                       |(d & location & Huser & Hparse & _ & ->)]];
      cbn [snd skipped MemStorage.entries]; auto.
    apply Forall_mapSet; auto. cbn [snd]. unfold complete.
    cbn [MemStorage.newEntry DiaryEntry.userId DiaryEntry.caption DiaryEntry.imageUrl].
    destruct (safeParse_data body d Hparse) as (Hu & _).
    cbv zeta in Hu. rewrite Hu in Huser. cbn in Huser.
    rewrite ensureCaption_userId.
    split; [now apply truthyStr_not_empty|].
    split; apply orDefault_not_empty; discriminate.
  - unfold Routes.deleteEntry.
    destruct (parseInt id) as [n|]; cbn [snd]; auto.
    destruct (MemStorage.getEntry st n); cbn [snd]; auto.
    now apply Forall_mapDelete.
  - unfold Routes.shareEntry.
    destruct (parseInt id) as [n|]; cbn [snd]; auto.
    destruct (MemStorage.getEntry st n) as [e|] eqn:Hget; cbn [snd]; auto.
    rewrite (updateEntrySharing_found _ _ _ _ _ Hget). cbn [snd MemStorage.entries].
    apply Forall_mapSet; auto. cbn [snd].
    apply mapGet_In in Hget. rewrite Forall_forall in Hall. exact (Hall _ Hget).
  - unfold Routes.unshareEntry.
    destruct (parseInt id) as [n|]; cbn [snd]; auto.
    destruct (MemStorage.getEntry st n) as [e|] eqn:Hget; cbn [snd]; auto.
    rewrite (updateEntrySharing_found _ _ _ _ _ Hget). cbn [snd MemStorage.entries].
    apply Forall_mapSet; auto. cbn [snd].
    apply mapGet_In in Hget. rewrite Forall_forall in Hall. exact (Hall _ Hget).
Qed.

Lemma complete_serve rs : forall st,
  Forall (fun p => complete (snd p)) (MemStorage.entries st) ->
  Forall (fun p => complete (snd p)) (MemStorage.entries (Routes.serve st rs)).
Proof.
  unfold Routes.serve.
  induction rs as [|r rs IH]; simpl; intros st Hall; auto.
  apply IH. now apply complete_handle.
Qed.

(** X4. Whatever requests the server has answered, every entry it stores
    has a user id, a caption and an image that are not empty, is stored
    under its own id, and no two bindings have the same id. *)
Theorem stored_entries_are_complete :
  forall (rs : list Routes.request),
    let st := Routes.serve MemStorage.new rs in
    NoDup (map DiaryEntry.id (stored st)) /\
    forall e, In e (stored st) ->
              complete e /\
              MemStorage.getEntry st (DiaryEntry.id e) = Some e.
Proof.
  intros rs st.
  assert (Hok : storageOk st) by (apply storageOk_serve, storageOk_new).
  assert (Hc : Forall (fun p => complete (snd p)) (MemStorage.entries st))
    by (apply complete_serve; constructor).
  destruct Hok as (_ & Hnd & Hall).
  assert (Hids : map DiaryEntry.id (stored st) = mapKeys (MemStorage.entries st)).
  { unfold stored, mapValues, mapKeys. rewrite map_map.
    apply map_ext_in. intros p Hp. rewrite Forall_forall in Hall.
    exact (proj1 (Hall p Hp)). }
  split; [now rewrite Hids|].
  intros e Hin. unfold stored, mapValues in Hin.
  apply in_map_iff in Hin as ([k e0] & He & Hin). simpl in He. subst e0.
  rewrite Forall_forall in Hc, Hall. split; [exact (Hc _ Hin)|].
  pose proof (proj1 (Hall _ Hin)) as Hid. simpl in Hid. rewrite Hid.
  unfold MemStorage.getEntry. now apply mapGet_bound.
Qed.

Lemma stored_entries_are_complete_witness :
  complete fujiEntry /\ MemStorage.getEntry (Routes.serve MemStorage.new creating) 1 = Some fujiEntry.
Proof.
  apply (proj2 (stored_entries_are_complete creating) fujiEntry).
  left. reflexivity.
Defined.

(** ** Listings after a request *)

Section SortCongruence.
Context {A : Type} (R : A -> A -> Prop) (cmp : A -> A -> Z).
Hypothesis cmp_R : forall a a' b b', R a a' -> R b b' -> cmp a b = cmp a' b'.

Lemma Forall2_filter (p : A -> bool) l l' :
  (forall a a', R a a' -> p a = p a') ->
  Forall2 R l l' -> Forall2 R (filter p l) (filter p l').
Proof.
  intros Hp. induction 1 as [|a a' l l' Ha Hl IH]; simpl; [constructor|].
  rewrite (Hp a a' Ha). destruct (p a'); auto.
Qed.

Lemma Forall2_insert x x' l l' :
  R x x' -> Forall2 R l l' -> Forall2 R (insert cmp x l) (insert cmp x' l').
Proof.
  intros Hx. induction 1 as [|a a' l l' Ha Hl IH]; simpl.
  - repeat constructor. exact Hx.
  - rewrite (cmp_R x x' a a' Hx Ha).
    destruct (0 <? cmp x' a'); repeat constructor; auto.
Qed.

Lemma Forall2_sort l l' : Forall2 R l l' -> Forall2 R (sort cmp l) (sort cmp l').
Proof.
  induction 1 as [|a a' l l' Ha Hl IH]; simpl; [constructor|].
  now apply Forall2_insert.
Qed.
End SortCongruence.

Lemma Forall2_map_eq {A B : Type} (g : A -> B) l l' :
  Forall2 (fun a b => g a = g b) l l' -> map g l = map g l'.
Proof. induction 1; simpl; congruence. Qed.

Lemma Forall2_same {A : Type} (R : A -> A -> Prop) l :
  (forall a, R a a) -> Forall2 R l l.
Proof. intros HR. induction l; constructor; auto. Qed.

Lemma mapValues_set_bound (m : list (Z * DiaryEntry.t)) k v v0 :
  mapGet k m = Some v0 -> content v = content v0 ->
  Forall2 (fun a b => content a = content b) (mapValues (mapSet k v m)) (mapValues m).
Proof.
  intros Hget Hc. induction m as [|[k' v'] m IH]; simpl in *; [discriminate|].
  destruct (k =? k'); simpl.
  - injection Hget as ->. constructor; [exact Hc|].
    apply Forall2_same. reflexivity.
  - constructor; auto.
Qed.

Lemma listing_respects_content st st' u :
  Forall2 (fun a b => content a = content b) (stored st') (stored st) ->
  map content (MemStorage.getEntriesByUserId st' u) =
  map content (MemStorage.getEntriesByUserId st u).
Proof.
  intros H. apply Forall2_map_eq. unfold MemStorage.getEntriesByUserId.
  apply Forall2_sort.
  - intros a a' b b' Ha Hb. unfold MemStorage.byCreatedAtDesc.
    apply (f_equal DiaryEntry.createdAt) in Ha, Hb. simpl in Ha, Hb. congruence.
  - apply Forall2_filter; [|exact H].
    intros a a' Ha. apply (f_equal DiaryEntry.userId) in Ha. simpl in Ha. congruence.
Qed.

(** X5. Sharing and unsharing never reorder, add or drop anything in a
    listing: after a share or an unshare request, answered in whatever
    way, the listing of every user shows the same entries in the same
    order, alike in everything but their sharing fields. *)
Theorem sharing_keeps_listings :
  forall (st : MemStorage.t) (id uuid u : string),
    map content (MemStorage.getEntriesByUserId (snd (Routes.shareEntry st id uuid)) u) =
    map content (MemStorage.getEntriesByUserId st u) /\
    map content (MemStorage.getEntriesByUserId (snd (Routes.unshareEntry st id)) u) =
    map content (MemStorage.getEntriesByUserId st u).
Proof.
  intros st id uuid u. split.
  - unfold Routes.shareEntry.
    destruct (parseInt id) as [n|]; [|reflexivity].
    destruct (MemStorage.getEntry st n) as [e|] eqn:Hget; [|reflexivity].
    rewrite (updateEntrySharing_found _ _ _ _ _ Hget). cbn [snd].
    apply listing_respects_content. unfold stored. cbn [MemStorage.entries].
    now apply mapValues_set_bound with (v0 := e).
  - unfold Routes.unshareEntry.
    destruct (parseInt id) as [n|]; [|reflexivity].
    destruct (MemStorage.getEntry st n) as [e|] eqn:Hget; [|reflexivity].
    rewrite (updateEntrySharing_found _ _ _ _ _ Hget). cbn [snd].
    apply listing_respects_content. unfold stored. cbn [MemStorage.entries].
    now apply mapValues_set_bound with (v0 := e).
Qed.

Section SortFilter.
Context {A : Type} (key : A -> Z) (cmp : A -> A -> Z).
Hypothesis cmp_key : forall a b, cmp a b = key b - key a.

Lemma insert_filter_out (q : A -> bool) x l :
  q x = false -> filter q (insert cmp x l) = filter q l.
Proof.
  intros Hx. induction l as [|y l IH]; simpl; [now rewrite Hx|].
  destruct (0 <? cmp x y); simpl.
  - now rewrite IH.
  - now rewrite Hx.
Qed.

Lemma insert_filter_in (q : A -> bool) x l :
  q x = true -> StronglySorted (fun a b => key b <= key a) l ->
  filter q (insert cmp x l) = insert cmp x (filter q l).
Proof.
  intros Hx. induction 1 as [|y l Hs IH Hall]; simpl; [now rewrite Hx|].
  destruct (0 <? cmp x y) eqn:E; simpl.
  - rewrite IH. destruct (q y); simpl; [now rewrite E|reflexivity].
  - rewrite Hx. destruct (q y) eqn:Hy; simpl; [now rewrite E|].
    rewrite cmp_key in E. apply Z.ltb_ge in E.
    assert (Hhead : forall l', Forall (fun z => key z <= key y) l' ->
                               insert cmp x (filter q l') = x :: filter q l').
    { intros l' Hl'. induction Hl' as [|z l' Hz Hl' IHl']; simpl; [reflexivity|].
      destruct (q z); simpl; [|exact IHl'].
      rewrite cmp_key.
      destruct (0 <? key z - key x) eqn:E'; [|reflexivity].
      apply Z.ltb_lt in E'. lia. }
    symmetry. now apply Hhead.
Qed.

Lemma sort_filter (q : A -> bool) l :
  sort cmp (filter q l) = filter q (sort cmp l).
Proof.
  induction l as [|x l IH]; simpl; [reflexivity|].
  destruct (q x) eqn:Hx; simpl.
  - rewrite IH. symmetry. apply insert_filter_in; [exact Hx|].
    now apply (sort_sorted key cmp).
  - rewrite IH. symmetry. now apply insert_filter_out.
Qed.

(** An element newer than all the others is sorted to the front. *)
Lemma sort_newest l x :
  Forall (fun y => key y < key x) l -> sort cmp (l ++ [x]) = x :: sort cmp l.
Proof.
  induction 1 as [|y l Hy Hl IH]; simpl; [reflexivity|].
  rewrite IH. simpl. rewrite cmp_key.
  destruct (0 <? key x - key y) eqn:E; [reflexivity|].
  apply Z.ltb_ge in E. lia.
Qed.
End SortFilter.

Lemma filter_filter {A : Type} (p q : A -> bool) l :
  filter p (filter q l) = filter q (filter p l).
Proof.
  induction l as [|x l IH]; simpl; [reflexivity|].
  destruct (p x) eqn:Hp, (q x) eqn:Hq; simpl; rewrite ?Hp, ?Hq, IH; reflexivity.
Qed.

Lemma mapValues_delete (m : list (Z * DiaryEntry.t)) n :
  Forall (fun p => DiaryEntry.id (snd p) = fst p) m ->
  mapValues (mapDelete n m) =
  filter (fun e => negb (DiaryEntry.id e =? n)) (mapValues m).
Proof.
  induction 1 as [|[k e] m Hk Hm IH]; simpl; [reflexivity|].
  simpl in Hk. rewrite Hk. destruct (k =? n); simpl; [exact IH|].
  f_equal. exact IH.
Qed.

Lemma filter_all {A : Type} (p : A -> bool) l :
  (forall x, In x l -> p x = true) -> filter p l = l.
Proof.
  induction l as [|x l IH]; simpl; intros H; [reflexivity|].
  rewrite (H x (or_introl eq_refl)). f_equal. apply IH. auto.
Qed.

(** X6. In every state of the server a delete request for an id that
    reads as [n] leaves in every listing exactly the entries whose id is
    not [n], in the order they had. *)
Theorem delete_removes_from_listings :
  forall (rs : list Routes.request) (id u : string) (n : Z),
    let st := Routes.serve MemStorage.new rs in
    parseInt id = Some n ->
    MemStorage.getEntriesByUserId (snd (Routes.deleteEntry st id)) u =
    filter (fun e => negb (DiaryEntry.id e =? n)) (MemStorage.getEntriesByUserId st u).
Proof.
  intros rs id u n st Hparse.
  assert (Hok : storageOk st) by (apply storageOk_serve, storageOk_new).
  assert (Hids : Forall (fun p => DiaryEntry.id (snd p) = fst p) (MemStorage.entries st)).
  { destruct Hok as (_ & _ & Hall). eapply Forall_impl; [|exact Hall].
    intros p Hp. exact (proj1 Hp). }
  assert (Hkey : forall a b, MemStorage.byCreatedAtDesc a b =
                             getTime (DiaryEntry.createdAt b) - getTime (DiaryEntry.createdAt a))
    by reflexivity.
  unfold MemStorage.getEntriesByUserId.
  rewrite <- (sort_filter _ _ Hkey), filter_filter.
  f_equal. f_equal.
  unfold Routes.deleteEntry. rewrite Hparse.
  destruct (MemStorage.getEntry st n) as [e|] eqn:Hget; cbn [snd].
  - unfold MemStorage.deleteEntry. cbn [MemStorage.entries].
    now apply mapValues_delete.
  - symmetry. apply filter_all. intros e Hin.
    apply negb_true_iff, Z.eqb_neq. intros Heq.
    unfold mapValues in Hin. apply in_map_iff in Hin as ([k e0] & He & Hin).
    simpl in He. subst e0.
    rewrite Forall_forall in Hids. pose proof (Hids _ Hin) as Hk. simpl in Hk.
    destruct Hok as (_ & Hnd & _).
    pose proof (mapGet_bound _ _ _ Hnd Hin) as Hfound.
    unfold MemStorage.getEntry in Hget. congruence.
Qed.

Lemma delete_removes_from_listings_witness :
  map DiaryEntry.id
    (MemStorage.getEntriesByUserId
       (snd (Routes.deleteEntry (Routes.serve MemStorage.new creating) "1")) "u1") = [].
Proof.
  rewrite (delete_removes_from_listings creating "1" "u1" 1 eq_refl). reflexivity.
Defined.

(** X7. In every state of the server, when a create request is answered
    with the entry [e], the listing of every other user is what it was,
    and the listing of the user of [e] has gained [e] and nothing else;
    when the instant of the request is later than that of every stored
    entry, [e] heads that listing and the rest follows unchanged. *)
Theorem created_entry_is_listed :
  forall (rs : list Routes.request) (body : json) (now : isoString)
         (e : DiaryEntry.t) (u : string),
    let st := Routes.serve MemStorage.new rs in
    let st' := snd (Routes.createEntry st body now) in
    fst (Routes.createEntry st body now) = Routes.res 201 (Routes.Entry e) ->
    (u <> DiaryEntry.userId e ->
     MemStorage.getEntriesByUserId st' u = MemStorage.getEntriesByUserId st u) /\
    Permutation (MemStorage.getEntriesByUserId st' (DiaryEntry.userId e))
                (e :: MemStorage.getEntriesByUserId st (DiaryEntry.userId e)) /\
    ((forall e0, In e0 (stored st) -> DiaryEntry.createdAt e0 < now) ->
     MemStorage.getEntriesByUserId st' (DiaryEntry.userId e) =
     e :: MemStorage.getEntriesByUserId st (DiaryEntry.userId e)).
Proof.
  intros rs body now e u st st' Hresp.
  assert (Hkey : forall a b, MemStorage.byCreatedAtDesc a b =
                             getTime (DiaryEntry.createdAt b) - getTime (DiaryEntry.createdAt a))
    by reflexivity.
  assert (Hok : storageOk st) by (apply storageOk_serve, storageOk_new).
  subst st'. revert Hresp.
  destruct (createEntry_route_cases st body now)
    as [(m & -> & _)|[(d & error & _ & _ & _ & ->)
                     |(d & location & _ & _ & _ & ->)]];
    cbn [fst snd]; intros Hresp.
  - discriminate.
  - discriminate.
  - injection Hresp as <-.
    assert (Hnow : DiaryEntry.createdAt
                     (MemStorage.newEntry (MemStorage.currentId st)
                        (Routes.ensureCaption d) location now) = now) by reflexivity.
    set (e := MemStorage.newEntry (MemStorage.currentId st)
                (Routes.ensureCaption d) location now) in *.
    set (st' := MemStorage.mk (mapSet (MemStorage.currentId st) e (MemStorage.entries st))
                  (MemStorage.currentId st + 1)).
    assert (Hstored : stored st' = (stored st ++ [e])%list).
    { unfold stored, mapValues, st'. cbn [MemStorage.entries].
      rewrite mapSet_new by now apply counter_is_free.
      rewrite map_app. reflexivity. }
    unfold MemStorage.getEntriesByUserId. fold (stored st') (stored st).
    rewrite Hstored, !filter_app. cbn [filter].
    split; [|split].
    + intros Hu. destruct (String.eqb (DiaryEntry.userId e) u) eqn:E.
      * apply String.eqb_eq in E. congruence.
      * now rewrite app_nil_r.
    + rewrite String.eqb_refl.
      rewrite sort_perm. rewrite <- Permutation_cons_append.
      constructor. symmetry. apply sort_perm.
    + intros Hlate. rewrite String.eqb_refl.
      apply (sort_newest _ _ Hkey).
      apply Forall_forall. intros e0 Hin. apply filter_In in Hin as [Hin _].
      unfold getTime. rewrite Hnow. now apply Hlate.
Qed.

Lemma created_entry_is_listed_witness :
  MemStorage.getEntriesByUserId (Routes.serve MemStorage.new creating) "u2" = [] /\
  MemStorage.getEntriesByUserId (Routes.serve MemStorage.new creating) "u1" = [fujiEntry].
Proof.
  destruct (created_entry_is_listed [] fujiBody 1000 fujiEntry "u2" eq_refl)
    as (Hother & _ & Hfirst).
  split.
  - apply Hother. discriminate.
  - apply Hfirst. intros e0 [].
Defined.

(** ** Sharing, again and again *)

Lemma share_token_settles s uuid :
  s <> Some "" -> uuid <> "" ->
  exists t, t <> "" /\ orStr (orStr s (Some uuid)) s = Some t.
Proof.
  intros Hs Hu. destruct s as [s|].
  - assert (s <> "") by congruence. exists s. split; [auto|now apply orStr_keeps].
  - exists uuid. split; [auto|now apply orStr_fresh].
Qed.

(** X8. In every state of the server, with a generator that never gives
    the empty string: a share request repeated gets the answer of the
    first and leaves the storage as the first left it; so does a share
    request that follows an unshare request of the shared entry; and in
    any storage an unshare request repeated gets the answer of the first
    and changes nothing more. *)
Theorem sharing_twice_is_sharing_once :
  forall (rs : list Routes.request) (id uuid uuid' : string),
    let st := Routes.serve MemStorage.new rs in
    let shared := snd (Routes.shareEntry st id uuid) in
    uuid <> "" ->
    Routes.shareEntry shared id uuid' = (fst (Routes.shareEntry st id uuid), shared) /\
    Routes.shareEntry (snd (Routes.unshareEntry shared id)) id uuid' =
    (fst (Routes.shareEntry st id uuid), shared) /\
    Routes.unshareEntry (snd (Routes.unshareEntry st id)) id =
    (fst (Routes.unshareEntry st id), snd (Routes.unshareEntry st id)).
Proof.
  intros rs id uuid uuid' st shared Huuid. subst shared.
  assert (Hok : storageOk st) by (apply storageOk_serve, storageOk_new).
  destruct (parseInt id) as [n|] eqn:Hparse.
  2:{ unfold Routes.shareEntry, Routes.unshareEntry.
      repeat (rewrite ?Hparse; cbn [fst snd]). repeat split. }
  destruct (MemStorage.getEntry st n) as [e|] eqn:Hget.
  2:{ unfold Routes.shareEntry, Routes.unshareEntry.
      repeat (rewrite ?Hparse, ?Hget; cbn [fst snd]). repeat split. }
  destruct (getEntry_ok st n e Hok Hget) as (_ & _ & Hne).
  destruct (share_token_settles (DiaryEntry.shareId e) uuid Hne Huuid) as (t & Ht & Hshare).
  rewrite (shareEntry_found st id uuid n e Hparse Hget). cbv zeta. rewrite Hshare.
  cbn [fst snd].
  set (e1 := withSharing true (Some t) e).
  set (st1 := MemStorage.mk (mapSet n e1 (MemStorage.entries st)) (MemStorage.currentId st)).
  assert (Hget1 : MemStorage.getEntry st1 n = Some e1).
  { unfold MemStorage.getEntry, st1. cbn [MemStorage.entries]. apply mapGet_set_same. }
  split; [|split].
  - rewrite (shareEntry_found st1 id uuid' n e1 Hparse Hget1). cbv zeta.
    cbn [e1 withSharing DiaryEntry.shareId]. rewrite orStr_keeps by exact Ht.
    unfold st1. cbn [MemStorage.entries MemStorage.currentId].
    rewrite mapSet_set. reflexivity.
  - rewrite (unshareEntry_found st1 id n e1 Hparse Hget1). cbn [snd].
    set (e2 := withSharing false (DiaryEntry.shareId e1) e1).
    set (st2 := MemStorage.mk (mapSet n e2 (MemStorage.entries st1)) (MemStorage.currentId st1)).
    assert (Hget2 : MemStorage.getEntry st2 n = Some e2).
    { unfold MemStorage.getEntry, st2. cbn [MemStorage.entries]. apply mapGet_set_same. }
    rewrite (shareEntry_found st2 id uuid' n e2 Hparse Hget2). cbv zeta.
    cbn [e2 e1 withSharing DiaryEntry.shareId]. rewrite orStr_keeps by exact Ht.
    unfold st2, st1. cbn [MemStorage.entries MemStorage.currentId].
    rewrite !mapSet_set. reflexivity.
  - rewrite (unshareEntry_found st id n e Hparse Hget). cbn [fst snd].
    set (e3 := withSharing false (DiaryEntry.shareId e) e).
    set (st3 := MemStorage.mk (mapSet n e3 (MemStorage.entries st)) (MemStorage.currentId st)).
    assert (Hget3 : MemStorage.getEntry st3 n = Some e3).
    { unfold MemStorage.getEntry, st3. cbn [MemStorage.entries]. apply mapGet_set_same. }
    rewrite (unshareEntry_found st3 id n e3 Hparse Hget3).
    unfold st3. cbn [e3 withSharing DiaryEntry.shareId MemStorage.entries MemStorage.currentId].
    rewrite mapSet_set. reflexivity.
Qed.

Lemma sharing_twice_is_sharing_once_witness :
  Routes.shareEntry (Routes.serve MemStorage.new sharing) "1" "another" =
  (Routes.res 200 (Routes.Shared "Entry shared successfully"
                     (Some "6fa459ea") "/shared/6fa459ea"),
   Routes.serve MemStorage.new sharing).
Proof.
  assert (H : "6fa459ea" <> "") by discriminate.
  exact (proj1 (sharing_twice_is_sharing_once creating "1" "6fa459ea" "another" H)).
Defined.

(** ** One token, one entry *)

Lemma getEntry_stored st k e : MemStorage.getEntry st k = Some e -> In e (stored st).
Proof.
  intros H. apply mapGet_In in H. unfold stored, mapValues.
  change e with (snd (k, e)). now apply in_map.
Qed.

Lemma tokensDistinct_handle st r :
  storageOk st -> tokensDistinct st ->
  match r with
  | Routes.PostShare _ uuid =>
      uuid <> "" /\ forall e, In e (stored st) -> DiaryEntry.shareId e <> Some uuid
  | _ => True
  end ->
  tokensDistinct (snd (Routes.handle st r)).
Proof.
  intros Hok Hd Hfresh.
  destruct r as [u|id|body now|id|id uuid|id]; cbn [Routes.handle snd]; auto.
  - destruct (createEntry_route_cases st body now)
      as [(m & -> & _)|[(d & error & _ & _ & _ & ->)
                       |(d & location & _ & _ & _ & ->)]]; cbn [snd]; auto.
    intros k1 k2 e1 e2 s. unfold MemStorage.getEntry. cbn [MemStorage.entries].
    destruct (Z.eq_dec k1 (MemStorage.currentId st)) as [->|H1];
      [rewrite mapGet_set_same; intros [= <-] _ Hs; discriminate Hs|].
    destruct (Z.eq_dec k2 (MemStorage.currentId st)) as [->|H2];
      [rewrite mapGet_set_same; intros _ [= <-] _ Hs; discriminate Hs|].
    rewrite !mapGet_set_other by assumption. apply Hd.
  - unfold Routes.deleteEntry.
    destruct (parseInt id) as [n|]; cbn [snd]; auto.
    destruct (MemStorage.getEntry st n); cbn [snd]; auto.
    intros k1 k2 e1 e2 s. unfold MemStorage.deleteEntry, MemStorage.getEntry.
    cbn [MemStorage.entries].
    destruct (Z.eq_dec k1 n) as [->|H1]; [now rewrite mapGet_delete_same|].
    destruct (Z.eq_dec k2 n) as [->|H2]; [now rewrite mapGet_delete_same|].
    rewrite !mapGet_delete_other by assumption. apply Hd.
  - destruct Hfresh as [Huuid Hnew]. unfold Routes.shareEntry.
    destruct (parseInt id) as [n|]; cbn [snd]; auto.
    destruct (MemStorage.getEntry st n) as [e|] eqn:Hget; cbn [snd]; auto.
    rewrite (updateEntrySharing_found _ _ _ _ _ Hget). cbn [snd].
    destruct (getEntry_ok st n e Hok Hget) as (_ & _ & Hne).
    assert (Htok : forall k2 e2 s,
               k2 <> n -> MemStorage.getEntry st k2 = Some e2 ->
               orStr (orStr (DiaryEntry.shareId e) (Some uuid)) (DiaryEntry.shareId e) = Some s ->
               DiaryEntry.shareId e2 = Some s -> False).
    { intros k2 e2 s Hk2 Hget2 Hs Hs2.
      destruct (DiaryEntry.shareId e) as [s0|] eqn:Hse.
      - assert (s0 <> "") by congruence.
        rewrite orStr_keeps in Hs by assumption. injection Hs as ->.
        apply Hk2. symmetry. exact (Hd n k2 e e2 s Hget Hget2 Hse Hs2).
      - rewrite orStr_fresh in Hs by assumption. injection Hs as <-.
        exact (Hnew e2 (getEntry_stored _ _ _ Hget2) Hs2). }
    intros k1 k2 e1 e2 s. unfold MemStorage.getEntry. cbn [MemStorage.entries].
    destruct (Z.eq_dec k1 n) as [->|H1], (Z.eq_dec k2 n) as [->|H2]; auto.
    + rewrite mapGet_set_same, mapGet_set_other by assumption.
      intros [= <-] Hget2 Hs Hs2. exfalso. exact (Htok k2 e2 s H2 Hget2 Hs Hs2).
    + rewrite mapGet_set_same, mapGet_set_other by assumption.
      intros Hget1 [= <-] Hs1 Hs. exfalso. exact (Htok k1 e1 s H1 Hget1 Hs Hs1).
    + rewrite !mapGet_set_other by assumption. apply Hd.
  - unfold Routes.unshareEntry.
    destruct (parseInt id) as [n|]; cbn [snd]; auto.
    destruct (MemStorage.getEntry st n) as [e|] eqn:Hget; cbn [snd]; auto.
    rewrite (updateEntrySharing_found _ _ _ _ _ Hget). cbn [snd].
    intros k1 k2 e1 e2 s. unfold MemStorage.getEntry. cbn [MemStorage.entries].
    destruct (Z.eq_dec k1 n) as [->|H1], (Z.eq_dec k2 n) as [->|H2]; auto.
    + rewrite mapGet_set_same, mapGet_set_other by assumption.
      intros [= <-] Hget2 Hs Hs2. exact (Hd n k2 e e2 s Hget Hget2 Hs Hs2).
    + rewrite mapGet_set_same, mapGet_set_other by assumption.
      intros Hget1 [= <-] Hs1 Hs. exact (Hd k1 n e1 e s Hget1 Hget Hs1 Hs).
    + rewrite !mapGet_set_other by assumption. apply Hd.
Qed.

Lemma tokensDistinct_serve rs : forall st,
  storageOk st -> tokensDistinct st -> freshTokens st rs ->
  tokensDistinct (Routes.serve st rs).
Proof.
  unfold Routes.serve.
  induction rs as [|r rs IH]; simpl; intros st Hok Hd Hfresh; auto.
  destruct Hfresh as [Hr Hrest]. apply IH; auto.
  - now apply storageOk_handle.
  - now apply tokensDistinct_handle.
Qed.

Lemma lookup_by_token st n e s :
  storageOk st -> tokensDistinct st ->
  MemStorage.getEntry st n = Some e ->
  DiaryEntry.shareId e = Some s ->
  MemStorage.getEntryByShareId st s = if DiaryEntry.isShared e then Some e else None.
Proof.
  intros Hok Hd Hget Hs.
  assert (Hfound : forall e', MemStorage.getEntryByShareId st s = Some e' ->
                              e' = e /\ DiaryEntry.isShared e = true).
  { intros e' Hfind. apply find_some in Hfind as [Hin Hp].
    apply andb_true_iff in Hp as [Hp Hsh].
    unfold MemStorage.shareIdIs in Hp.
    destruct (DiaryEntry.shareId e') as [s'|] eqn:Hs'; [|discriminate].
    apply String.eqb_eq in Hp. subst s'.
    unfold mapValues in Hin. apply in_map_iff in Hin as ([k e0] & He & Hin).
    simpl in He. subst e0.
    destruct Hok as (_ & Hnd & _).
    pose proof (mapGet_bound _ _ _ Hnd Hin) as Hget'.
    assert (k = n) by exact (Hd k n e' e s Hget' Hget Hs' Hs). subst k.
    unfold MemStorage.getEntry in Hget.
    assert (e' = e) by congruence. subst e'. auto. }
  destruct (MemStorage.getEntryByShareId st s) as [e'|] eqn:Hfind.
  - destruct (Hfound e' eq_refl) as [-> ->]. reflexivity.
  - destruct (DiaryEntry.isShared e) eqn:Hsh; [|reflexivity].
    pose proof (find_none _ _ Hfind e (getEntry_stored _ _ _ Hget)) as Hno.
    cbv beta in Hno. unfold MemStorage.shareIdIs in Hno.
    rewrite Hs, String.eqb_refl, Hsh in Hno. discriminate.
Qed.

Lemma tokensDistinct_new : tokensDistinct MemStorage.new.
Proof. intros k1 k2 e1 e2 s H. discriminate H. Qed.

(** X9. When every token the generator hands to a share request is new
    (not empty, not the token of a stored entry), no two stored entries
    ever have the same token, and looking up the token of a stored entry
    gives that entry while it is shared and nothing otherwise: after
    unsharing, the old token finds nothing. *)
Theorem tokens_identify_entries :
  forall (rs : list Routes.request),
    freshTokens MemStorage.new rs ->
    let st := Routes.serve MemStorage.new rs in
    tokensDistinct st /\
    forall n e s,
      MemStorage.getEntry st n = Some e ->
      DiaryEntry.shareId e = Some s ->
      MemStorage.getEntryByShareId st s =
      if DiaryEntry.isShared e then Some e else None.
Proof.
  intros rs Hfresh st.
  assert (Hok : storageOk st) by (apply storageOk_serve, storageOk_new).
  assert (Hd : tokensDistinct st).
  { apply tokensDistinct_serve; auto using storageOk_new, tokensDistinct_new. }
  split; [exact Hd|].
  intros n e s. now apply lookup_by_token.
Qed.

Lemma tokens_identify_entries_witness :
  MemStorage.getEntryByShareId (Routes.serve MemStorage.new sharing) "6fa459ea" =
  Some (withSharing true (Some "6fa459ea") fujiEntry) /\
  MemStorage.getEntryByShareId
    (Routes.serve MemStorage.new (sharing ++ [Routes.PostUnshare "1"])) "6fa459ea" = None.
Proof.
  assert (H1 : freshTokens MemStorage.new sharing).
  { repeat split. - discriminate. - intros e [<-|[]]. discriminate. }
  assert (H2 : freshTokens MemStorage.new (sharing ++ [Routes.PostUnshare "1"])).
  { repeat split. - discriminate. - intros e [<-|[]]. discriminate. }
  split.
  - exact (proj2 (tokens_identify_entries sharing H1) 1
             (withSharing true (Some "6fa459ea") fujiEntry) "6fa459ea" eq_refl eq_refl).
  - exact (proj2 (tokens_identify_entries (sharing ++ [Routes.PostUnshare "1"]) H2) 1
             (withSharing false (Some "6fa459ea") fujiEntry) "6fa459ea" eq_refl eq_refl).
Defined.

(** ** What a submission can and cannot decide *)

Lemma lookup_other k k' v fields :
  k <> k' -> lookup k ((k', v) :: fields) = lookup k fields.
Proof. intros H. simpl. apply String.eqb_neq in H. now rewrite H. Qed.

Lemma lookup_inserted k k' v before after :
  k <> k' -> lookup k (before ++ (k', v) :: after) = lookup k (before ++ after).
Proof.
  intros H. induction before as [|[k0 v0] before IH]; cbn [app].
  - now apply lookup_other.
  - cbn [lookup]. now rewrite IH.
Qed.

Lemma createEntry_reads_schemaKeys st fields fields' now :
  (forall k, In k schemaKeys -> lookup k fields = lookup k fields') ->
  Routes.createEntry st (JObj fields) now = Routes.createEntry st (JObj fields') now.
Proof.
  intros H. unfold Routes.createEntry, Zod.safeParse. cbv zeta. unfold getProp.
  rewrite !(H _) by (simpl; tauto). reflexivity.
Qed.

(** X10. Only the keys the insert schema reads count: two bodies that are
    objects with the same values under these keys are answered alike and
    leave the same storage.  So a key the schema does not read changes
    nothing, wherever it stands in the body: an [id] or a [createdAt]
    sent by a client is ignored. *)
Theorem unknown_keys_are_ignored :
  forall (st : MemStorage.t) (now : isoString),
    (forall fields fields' : list (string * json),
        (forall k, In k schemaKeys -> lookup k fields = lookup k fields') ->
        Routes.createEntry st (JObj fields) now =
        Routes.createEntry st (JObj fields') now) /\
    (forall (before after : list (string * json)) (k : string) (v : json),
        ~ In k schemaKeys ->
        Routes.createEntry st (JObj (before ++ (k, v) :: after)) now =
        Routes.createEntry st (JObj (before ++ after)) now).
Proof.
  intros st now. split.
  - intros fields fields'. apply createEntry_reads_schemaKeys.
  - intros before after k v Hk. apply createEntry_reads_schemaKeys.
    intros k' Hin. apply lookup_inserted. intros ->. contradiction.
Qed.

Lemma unknown_keys_are_ignored_witness :
  Routes.createEntry MemStorage.new
    (JObj [("userId", JStr "u1"); ("id", JNum 99%float); ("caption", JStr "Fuji");
           ("imageUrl", JStr "data:,");
           ("location",
            JObj [("lat", JNum 35.3606%float); ("lng", JNum 138.7274%float)]);
           ("screenInfo", portrait); ("createdAt", JStr "2020-01-01")]) 1000 =
  (Routes.res 201 (Routes.Entry fujiEntry), Routes.serve MemStorage.new creating) /\
  Routes.createEntry MemStorage.new
    (JObj [("caption", JStr "Fuji"); ("id", JNum 99%float); ("screenInfo", portrait);
           ("userId", JStr "u1"); ("imageUrl", JStr "data:,")]) 1000 =
  Routes.createEntry MemStorage.new
    (JObj [("caption", JStr "Fuji"); ("screenInfo", portrait);
           ("userId", JStr "u1"); ("imageUrl", JStr "data:,")]) 1000.
Proof.
  destruct (unknown_keys_are_ignored MemStorage.new 1000) as [Hsame Hkey].
  split.
  - etransitivity.
    + apply Hsame
        with (fields' :=
                [("userId", JStr "u1"); ("caption", JStr "Fuji");
                 ("imageUrl", JStr "data:,");
                 ("location",
                  JObj [("lat", JNum 35.3606%float); ("lng", JNum 138.7274%float)]);
                 ("screenInfo", portrait)]).
      intros k Hin. simpl in Hin.
      repeat (destruct Hin as [<-|Hin]; [reflexivity|]). contradiction.
    + reflexivity.
  - apply (Hkey [("caption", JStr "Fuji")]
             [("screenInfo", portrait); ("userId", JStr "u1"); ("imageUrl", JStr "data:,")]
             "id" (JNum 99%float)).
    simpl. intros Hin.
    repeat (destruct Hin as [Hin|Hin]; [discriminate Hin|]). contradiction.
Defined.

(** X11. An entry is created only from a body that is an object with a
    non-empty string as [userId], strings as [caption] and [imageUrl] and
    a [screenInfo]; the entry belongs to that user, carries the old
    counter as id and the instant of the request, and its caption and
    image are the submitted ones unless those are empty. *)
Theorem created_only_from_typed_bodies :
  forall (st : MemStorage.t) (body : json) (now : isoString) (e : DiaryEntry.t),
    fst (Routes.createEntry st body now) = Routes.res 201 (Routes.Entry e) ->
    exists userId caption imageUrl screenInfo,
      getProp (Some body) "userId" = Some (JStr userId) /\
      getProp (Some body) "caption" = Some (JStr caption) /\
      getProp (Some body) "imageUrl" = Some (JStr imageUrl) /\
      getProp (Some body) "screenInfo" = Some screenInfo /\
      userId <> "" /\
      DiaryEntry.userId e = userId /\
      DiaryEntry.id e = MemStorage.currentId st /\
      DiaryEntry.createdAt e = now /\
      (caption <> "" -> DiaryEntry.caption e = caption) /\
      (imageUrl <> "" -> DiaryEntry.imageUrl e = imageUrl) /\
      DiaryEntry.screenInfo e = MemStorage.screenInfoData screenInfo.
Proof.
  intros st body now e.
  destruct (createEntry_route_cases st body now)
    as [(m & -> & _)|[(d & error & _ & _ & _ & ->)
                     |(d & location & Huser & Hparse & _ & ->)]];
    cbn [fst]; try discriminate.
  intros [= <-].
  destruct (safeParse_data body d Hparse) as (Hu & Hc & Hi & _ & Hs).
  cbv zeta in Hu, Hc, Hi, Hs.
  exists (InsertDiaryEntry.userId d), (InsertDiaryEntry.caption d),
    (InsertDiaryEntry.imageUrl d), (InsertDiaryEntry.screenInfo d).
  rewrite Hu in Huser. cbn in Huser.
  cbn [MemStorage.newEntry DiaryEntry.userId DiaryEntry.id DiaryEntry.createdAt
         DiaryEntry.caption DiaryEntry.imageUrl DiaryEntry.screenInfo].
  repeat split; auto.
  - now apply truthyStr_not_empty.
  - apply ensureCaption_userId.
  - intros Hne. rewrite ensureCaption_caption. unfold resolvedCaption, MemStorage.orDefault.
    destruct (InsertDiaryEntry.caption d); [congruence|reflexivity].
  - intros Hne. rewrite ensureCaption_imageUrl. unfold MemStorage.orDefault.
    destruct (InsertDiaryEntry.imageUrl d); [congruence|reflexivity].
  - unfold Routes.ensureCaption.
    destruct (InsertDiaryEntry.captionText d) as [ct|];
      destruct (truthyStr (InsertDiaryEntry.caption d)); cbn [negb andb];
      try destruct (truthyStr ct); reflexivity.
Qed.

Lemma created_only_from_typed_bodies_witness :
  exists userId caption imageUrl screenInfo,
    getProp (Some fujiBody) "userId" = Some (JStr userId) /\
    getProp (Some fujiBody) "caption" = Some (JStr caption) /\
    getProp (Some fujiBody) "imageUrl" = Some (JStr imageUrl) /\
    getProp (Some fujiBody) "screenInfo" = Some screenInfo /\
    userId <> "" /\
    DiaryEntry.userId fujiEntry = userId /\
    DiaryEntry.id fujiEntry = 1 /\
    DiaryEntry.createdAt fujiEntry = 1000 /\
    (caption <> "" -> DiaryEntry.caption fujiEntry = caption) /\
    (imageUrl <> "" -> DiaryEntry.imageUrl fujiEntry = imageUrl) /\
    DiaryEntry.screenInfo fujiEntry = MemStorage.screenInfoData screenInfo.
Proof.
  exact (created_only_from_typed_bodies MemStorage.new fujiBody 1000 fujiEntry eq_refl).
Defined.

(** ** Ids written out and read back *)

Lemma digitsValue_acc d : forall p,
  Z.pos (Pos.of_uint_acc d p) = digitsValue d (Z.pos p).
Proof.
  induction d; intros p; cbn [Pos.of_uint_acc digitsValue]; try reflexivity;
    rewrite IHd; f_equal; lia.
Qed.

Lemma digitsValue_of_uint d : Z.of_N (Pos.of_uint d) = digitsValue d 0.
Proof.
  induction d; cbn [Pos.of_uint digitsValue Z.of_N]; try reflexivity;
    try exact IHd; apply digitsValue_acc.
Qed.

Ltac evaluate_chars :=
  repeat match goal with
         | |- context [digitValue 10 (Ascii ?a ?b ?c ?d ?e ?f ?g ?h)] =>
             let v := eval vm_compute in (digitValue 10 (Ascii a b c d e f g h)) in
             change (digitValue 10 (Ascii a b c d e f g h)) with v
         | |- context [isWhiteSpace (Ascii ?a ?b ?c ?d ?e ?f ?g ?h)] =>
             let v := eval vm_compute in (isWhiteSpace (Ascii a b c d e f g h)) in
             change (isWhiteSpace (Ascii a b c d e f g h)) with v
         end.

Lemma readDigits_decimal d : forall acc,
  readDigits 10 (NilEmpty.string_of_uint d) acc true = Some (digitsValue d acc).
Proof.
  induction d; intros acc; try reflexivity;
    cbn [NilEmpty.string_of_uint readDigits digitsValue]; evaluate_chars;
    cbv iota beta; rewrite IHd; f_equal; f_equal; lia.
Qed.

Lemma parseInt_decimal d :
  d <> Decimal.Nil ->
  parseInt (NilEmpty.string_of_uint d) = Some (digitsValue d 0) /\
  parseInt (String "-" (NilEmpty.string_of_uint d)) = Some (- digitsValue d 0).
Proof.
  intros Hd. unfold parseInt.
  destruct d as [|d|d|d|d|d|d|d|d|d|d]; [congruence| | | | | | | | | |];
    try (cbn [NilEmpty.string_of_uint trimStart]; evaluate_chars;
         cbn [stripSign stripHexPrefix readDigits digitsValue]; evaluate_chars;
         cbv iota beta; rewrite readDigits_decimal; split; f_equal; lia).
  destruct d;
    cbn [NilEmpty.string_of_uint trimStart]; evaluate_chars;
    cbn [stripSign stripHexPrefix readDigits digitsValue]; evaluate_chars;
    cbv iota beta; rewrite ?readDigits_decimal;
    repeat match goal with
           | |- context [digitsValue ?d ?x] =>
               let v := eval cbv in x in progress change x with v
           end;
    split; f_equal; lia.
Qed.

Lemma string_of_uint_nonnil d :
  d <> Decimal.Nil -> NilZero.string_of_uint d = NilEmpty.string_of_uint d.
Proof. destruct d; [congruence|reflexivity..]. Qed.

Lemma parseInt_numberToString n : parseInt (numberToString n) = Some n.
Proof.
  unfold numberToString. destruct n as [|p|p]; [reflexivity| |];
    cbn [Z.to_int NilZero.string_of_int];
    pose proof (DecimalPos.Unsigned.to_uint_nonnil p) as Hnil;
    rewrite (string_of_uint_nonnil _ Hnil).
  - rewrite (proj1 (parseInt_decimal _ Hnil)).
    now rewrite <- digitsValue_of_uint, DecimalPos.Unsigned.of_to.
  - rewrite (proj2 (parseInt_decimal _ Hnil)).
    now rewrite <- digitsValue_of_uint, DecimalPos.Unsigned.of_to.
Qed.

(** X12. A safe integer written out in decimal reads back as itself.  So
    after fewer than 2^53 requests the id of each stored entry is a safe
    integer, the entry is fetched by the request for its id written out,
    as the pages of the client do, and the delete request for it is
    answered 200 and removes it. *)
Theorem entries_are_reached_by_their_id :
  (forall n : Z, isSafeInteger n = true -> parseInt (numberToString n) = Some n) /\
  forall (rs : list Routes.request) (e : DiaryEntry.t),
    let st := Routes.serve MemStorage.new rs in
    Z.of_nat (List.length rs) < 2 ^ 53 ->
    In e (stored st) ->
    isSafeInteger (DiaryEntry.id e) = true /\
    Routes.getEntry st (numberToString (DiaryEntry.id e)) =
    Routes.res 200 (Routes.Entry e) /\
    Routes.deleteEntry st (numberToString (DiaryEntry.id e)) =
    (Routes.res 200 (Routes.Message "Entry deleted successfully"),
     MemStorage.deleteEntry st (DiaryEntry.id e)).
Proof.
  split; [intros n _; apply parseInt_numberToString|].
  intros rs e st Hlen Hin.
  assert (Hok : storageOk st) by (apply storageOk_serve, storageOk_new).
  assert (Hget : MemStorage.getEntry st (DiaryEntry.id e) = Some e).
  { unfold stored, mapValues in Hin. apply in_map_iff in Hin as ([k e0] & He & Hin).
    simpl in He. subst e0. destruct Hok as (_ & Hnd & Hall).
    rewrite Forall_forall in Hall. pose proof (proj1 (Hall _ Hin)) as Hid.
    simpl in Hid. rewrite Hid. unfold MemStorage.getEntry. now apply mapGet_bound. }
  split.
  - destruct (getEntry_ok st _ e Hok Hget) as (_ & Hrange & _).
    pose proof (serve_currentId rs MemStorage.new) as Hcur.
    change (MemStorage.currentId MemStorage.new) with 1 in Hcur. fold st in Hcur.
    unfold isSafeInteger. apply andb_true_iff. split; apply Z.ltb_lt; lia.
  - unfold Routes.getEntry, Routes.deleteEntry.
    rewrite parseInt_numberToString, Hget. split; reflexivity.
Qed.

Lemma entries_are_reached_by_their_id_witness :
  parseInt (numberToString 9007199254740991) = Some 9007199254740991 /\
  Routes.getEntry (Routes.serve MemStorage.new creating) "1" =
  Routes.res 200 (Routes.Entry fujiEntry).
Proof.
  split.
  - exact (proj1 entries_are_reached_by_their_id 9007199254740991 eq_refl).
  - assert (Hlen : Z.of_nat (List.length creating) < 2 ^ 53) by (cbn; lia).
    refine (proj1 (proj2 (proj2 entries_are_reached_by_their_id creating fujiEntry
                            Hlen _))).
    left. reflexivity.
Defined.

Example numberToString_samples :
  numberToString 42 = "42" /\ numberToString 0 = "0" /\ numberToString (-5) = "-5".
Proof. repeat split. Qed.

(** ** From the upload page to the storage and back *)

Lemma finite_not_nan x : PrimFloat.is_finite x = true -> PrimFloat.is_nan x = false.
Proof.
  unfold PrimFloat.is_finite. destruct (PrimFloat.is_nan x); [discriminate|reflexivity].
Qed.

Lemma jsonNumber_truthy x :
  PrimFloat.is_finite x = true -> PrimFloat.is_zero x = false ->
  jsonNumber x = JNum x /\ truthy (JNum x) = true.
Proof.
  intros Hf Hz. unfold jsonNumber, truthy.
  now rewrite Hf, Hz, (finite_not_nan x Hf).
Qed.

Lemma truthyStr_of_not_empty s : s <> "" -> truthyStr s = true.
Proof. destruct s; [congruence|reflexivity]. Qed.

(** X13. What the upload page posts comes back as it was sent.  For a
    user, a caption, a picture and an orientation that are not empty, a
    screen whose width and height are finite and not zero, and a position
    (if any) with finite coordinates, the create request is answered 201
    with an entry that has exactly this user, caption, picture, screen
    and position (a negative zero as zero), the old counter as id and the
    instant of the request, and is unshared; the request for that id
    written out then returns the same entry.  Neither placeholder is
    used. *)
Theorem upload_round_trip :
  forall (st : MemStorage.t) (userId captionText imageUrl orientation : string)
         (location : option (float * float)) (width height : float)
         (now : isoString),
    let body := uploadBody userId captionText imageUrl location width height
                  orientation in
    let e :=
      DiaryEntry.mk (MemStorage.currentId st) userId captionText imageUrl
        match location with
        | Some (lat, lng) =>
            Some (Location.mk
                    (Num (if PrimFloat.is_zero lat then PrimFloat.zero else lat))
                    (Num (if PrimFloat.is_zero lng then PrimFloat.zero else lng)))
        | None => None
        end
        (ScreenInfo.mk (JNum width) (JNum height) (JStr orientation))
        now None false in
    userId <> "" -> captionText <> "" -> imageUrl <> "" -> orientation <> "" ->
    PrimFloat.is_finite width = true -> PrimFloat.is_zero width = false ->
    PrimFloat.is_finite height = true -> PrimFloat.is_zero height = false ->
    (forall lat lng, location = Some (lat, lng) ->
                     PrimFloat.is_finite lat = true /\ PrimFloat.is_finite lng = true) ->
    fst (Routes.createEntry st body now) = Routes.res 201 (Routes.Entry e) /\
    Routes.getEntry (snd (Routes.createEntry st body now))
      (numberToString (MemStorage.currentId st)) = Routes.res 200 (Routes.Entry e).
Proof.
  intros st userId captionText imageUrl orientation location width height now body e
         Hu Hc Hi Ho Hwf Hwz Hhf Hhz Hloc.
  destruct (jsonNumber_truthy width Hwf Hwz) as [Hw Hwt].
  destruct (jsonNumber_truthy height Hhf Hhz) as [Hh Hht].
  apply truthyStr_of_not_empty in Hu, Hc, Hi, Ho.
  assert (Hlocation :
            MemStorage.locationData (getProp (Some body) "location") =
            Return (DiaryEntry.location e)).
  { subst body e. cbn [DiaryEntry.location].
    destruct location as [[lat lng]|]; [|reflexivity].
    destruct (Hloc lat lng eq_refl) as [Hlat Hlng].
    unfold uploadBody, jsonNumber. rewrite Hlat, Hlng. reflexivity. }
  assert (Hscreen :
            MemStorage.screenInfoData
              (JObj [("width", jsonNumber width); ("height", jsonNumber height);
                     ("orientation", JStr orientation)]) =
            ScreenInfo.mk (JNum width) (JNum height) (JStr orientation)).
  { unfold MemStorage.screenInfoData. cbn [getProp lookup String.eqb Ascii.eqb Bool.eqb].
    cbn. rewrite Hw, Hh. unfold orElse. rewrite Hwt, Hht. cbn [truthy]. now rewrite Ho. }
  assert (Hcreate :
            Routes.createEntry st body now =
            (Routes.res 201 (Routes.Entry e),
             MemStorage.mk (mapSet (MemStorage.currentId st) e (MemStorage.entries st))
               (MemStorage.currentId st + 1))).
  { unfold Routes.createEntry.
    replace (truthyOpt (getProp (Some body) "userId")) with true
      by (subst body; cbn; now rewrite Hu).
    cbn [negb].
    replace (Zod.safeParse body)
      with (inl (A := InsertDiaryEntry.t) (B := list Zod.issue)
              (InsertDiaryEntry.mk userId captionText imageUrl
                 (getProp (Some body) "location")
                 (JObj [("width", jsonNumber width); ("height", jsonNumber height);
                        ("orientation", JStr orientation)])
                 None None (Some captionText)))
      by reflexivity.
    unfold Routes.ensureCaption, MemStorage.createEntry.
    cbn [InsertDiaryEntry.caption InsertDiaryEntry.captionText InsertDiaryEntry.location].
    rewrite Hc. cbn [negb andb InsertDiaryEntry.location].
    rewrite Hlocation. unfold MemStorage.newEntry, MemStorage.orDefault.
    cbn [InsertDiaryEntry.userId InsertDiaryEntry.caption InsertDiaryEntry.imageUrl
           InsertDiaryEntry.screenInfo].
    rewrite Hc, Hi, Hscreen. reflexivity. }
  rewrite Hcreate. cbn [fst snd]. split; [reflexivity|].
  unfold Routes.getEntry. rewrite parseInt_numberToString.
  unfold MemStorage.getEntry. cbn [MemStorage.entries].
  now rewrite mapGet_set_same.
Qed.

Lemma upload_round_trip_witness :
  fst (Routes.createEntry MemStorage.new
         (uploadBody "u1" "Fuji" "data:," (Some (35.3606%float, 138.7274%float))
            1080%float 1920%float "Portrait") 1000) =
  Routes.res 201 (Routes.Entry fujiEntry).
Proof.
  refine (proj1 (upload_round_trip MemStorage.new "u1" "Fuji" "data:," "Portrait"
                   (Some (35.3606%float, 138.7274%float)) 1080%float 1920%float 1000
                   _ _ _ _ _ _ _ _ _));
    try discriminate; try reflexivity.
  intros lat lng [= <- <-]. split; reflexivity.
Defined.

(** ** The authentication middleware *)

Lemma split_without s : without " " s -> split " " s = [s].
Proof.
  induction s as [|c s IH]; [reflexivity|].
  intros [Hc Hs]. cbn [split]. apply Ascii.eqb_neq in Hc. rewrite Hc, (IH Hs). reflexivity.
Qed.

Lemma split_at_space a b :
  without " " a -> split " " (a ++ String " " b) = a :: split " " b.
Proof.
  induction a as [|c a IH]; [reflexivity|].
  intros [Hc Ha]. cbn [String.append split]. apply Ascii.eqb_neq in Hc.
  rewrite Hc, (IH Ha). reflexivity.
Qed.

Lemma append_not_empty a b : a ++ String " " b <> "".
Proof. destruct a; discriminate. Qed.

(** X14. The middleware hands a request on only with a user the
    verification service returned, without an error, for the token it was
    given: the second of the pieces of the header between single spaces,
    which must not be empty.  A header of the form scheme, space, token
    (whatever the scheme, even none) is decided by the verdict on the
    token alone, a failure of the service being answered 500; a header
    without a space is answered 401. *)
Theorem require_auth_guard :
  (forall (authorization : option string)
          (getUser : string -> completion Routes.UserResponse) (u : string),
      Routes.requireAuth authorization getUser = Routes.Next u ->
      exists header token,
        authorization = Some header /\
        nth_error (split " " header) 1 = Some token /\
        token <> "" /\
        getUser token = Return (Routes.mkUserResponse (Some u) None)) /\
  (forall (scheme token : string)
          (getUser : string -> completion Routes.UserResponse),
      without " " scheme -> without " " token -> token <> "" ->
      Routes.requireAuth (Some (scheme ++ String " " token)) getUser =
      match getUser token with
      | Throw _ => Routes.Answer (Routes.res 500 (Routes.Message "Authentication error"))
      | Return response =>
          match Routes.error response, Routes.user response with
          | None, Some u => Routes.Next u
          | _, _ =>
              Routes.Answer (Routes.res 401 (Routes.Message "Invalid or expired token"))
          end
      end) /\
  (forall (header : string) (getUser : string -> completion Routes.UserResponse),
      without " " header ->
      exists message,
        Routes.requireAuth (Some header) getUser =
        Routes.Answer (Routes.res 401 (Routes.Message message))).
Proof.
  split; [|split].
  - intros authorization getUser u. unfold Routes.requireAuth.
    destruct authorization as [header|]; [|discriminate].
    destruct (truthyStr header); cbn [negb]; [|discriminate].
    destruct (nth_error (split " " header) 1) as [token|] eqn:Htoken; [|discriminate].
    destruct (truthyStr token) eqn:Ht; cbn [negb]; [|discriminate].
    destruct (getUser token) as [[user error]|] eqn:Hget; [|discriminate].
    cbn [Routes.error Routes.user].
    destruct error; [discriminate|]. destruct user as [u'|]; [|discriminate].
    intros [= <-]. exists header, token. repeat split; auto.
    now apply truthyStr_not_empty.
  - intros scheme token getUser Hs Ht Hne. unfold Routes.requireAuth.
    rewrite (truthyStr_of_not_empty _ (append_not_empty scheme token)). cbn [negb].
    rewrite (split_at_space _ _ Hs), (split_without _ Ht). cbn [nth_error].
    rewrite (truthyStr_of_not_empty _ Hne). reflexivity.
  - intros header getUser Hh. unfold Routes.requireAuth.
    destruct (truthyStr header); cbn [negb]; [|eauto].
    rewrite (split_without _ Hh). cbn [nth_error]. eauto.
Qed.

Lemma require_auth_guard_witness :
  Routes.requireAuth (Some "Basic abc")
    (fun token => Return (Routes.mkUserResponse (Some token) None)) = Routes.Next "abc" /\
  exists message,
    Routes.requireAuth (Some "Bearer")
      (fun token => Return (Routes.mkUserResponse (Some token) None)) =
    Routes.Answer (Routes.res 401 (Routes.Message message)).
Proof.
  destruct require_auth_guard as (_ & Hform & Hnone).
  split.
  - apply (Hform "Basic" "abc"); cbn; repeat split; discriminate.
  - apply (Hnone "Bearer"). cbn. repeat split; discriminate.
Defined.

(** ** Pictures *)

(** X15. With a bound that is not negative, resizing never enlarges a
    picture, in width or in height, and resizing the result again with
    the same bound changes nothing. *)
Theorem resize_never_enlarges :
  forall (img : Supabase.Image) (maxWidth : Z),
    0 <= maxWidth ->
    0 < Supabase.width img -> 0 <= Supabase.height img ->
    let w := fst (Supabase.canvasSize img maxWidth) in
    let h := snd (Supabase.canvasSize img maxWidth) in
    0 <= w <= Supabase.width img /\
    0 <= h <= Supabase.height img /\
    w <= maxWidth /\
    Supabase.canvasSize (Supabase.mkImage w h) maxWidth = (w, h).
Proof.
  intros [iw ih] m Hm Hw Hh w h. subst w h. unfold Supabase.canvasSize.
  cbn [Supabase.width Supabase.height] in *.
  destruct (m <? iw) eqn:E; cbn [fst snd Supabase.width Supabase.height].
  - apply Z.ltb_lt in E. rewrite Z.ltb_irrefl.
    assert (0 <= ih * m / iw <= ih).
    { split; [apply Z.div_pos; nia|].
      apply Z.div_le_upper_bound; [exact Hw|]. nia. }
    repeat split; lia.
  - rewrite E. apply Z.ltb_ge in E. repeat split; lia.
Qed.

Lemma resize_never_enlarges_witness :
  Supabase.canvasSize (Supabase.mkImage 800 600) 800 = (800, 600).
Proof.
  assert (H0 : 0 <= 800) by lia.
  assert (H1 : 0 < Supabase.width (Supabase.mkImage 1600 1200)) by reflexivity.
  assert (H2 : 0 <= Supabase.height (Supabase.mkImage 1600 1200)) by (cbn; lia).
  exact (proj2 (proj2 (proj2
           (resize_never_enlarges (Supabase.mkImage 1600 1200) 800 H0 H1 H2)))).
Defined.

(** X16. [uploadImage] gives a data URL exactly when the file is read,
    the picture decodes, its canvas has pixels, the encoder succeeds and
    the result is read back; what is read back is then a JPEG of quality
    0.7, at most 800 wide, of the size of the canvas.  In every other case
    it gives null.  A picture more than 800 wide and so flat that its
    scaled height is below one pixel is never uploaded.  The user id has
    no part in it. *)
Theorem upload_image_result :
  forall (readable : bool) (img : option Supabase.Image) (encodes : bool)
         (dataUrlOf : Supabase.Blob -> option string) (userId : string),
    (forall url,
        Supabase.uploadImage readable img encodes dataUrlOf userId = Some url <->
        exists i,
          img = Some i /\ readable = true /\ encodes = true /\
          0 < fst (Supabase.canvasSize i 800) <= 800 /\
          0 < snd (Supabase.canvasSize i 800) /\
          dataUrlOf (Supabase.mkBlob (fst (Supabase.canvasSize i 800))
                       (snd (Supabase.canvasSize i 800)) "image/jpeg" 0.7%float)
          = Some url) /\
    (forall i, img = Some i ->
               800 < Supabase.width i ->
               0 <= Supabase.height i ->
               Supabase.height i * 800 < Supabase.width i ->
               Supabase.uploadImage readable img encodes dataUrlOf userId = None) /\
    (forall other,
        Supabase.uploadImage readable img encodes dataUrlOf other =
        Supabase.uploadImage readable img encodes dataUrlOf userId).
Proof.
  intros readable img encodes dataUrlOf userId.
  unfold Supabase.uploadImage, Supabase.resizeAndCompressImage, Supabase.toBlob,
    Supabase.readFileAsDataURL.
  split; [|split].
  - intros url. split.
    + destruct readable; [|discriminate]. destruct img as [i|]; [|discriminate].
      destruct (0 <? fst (Supabase.canvasSize i 800)) eqn:Hw; [|discriminate].
      destruct (0 <? snd (Supabase.canvasSize i 800)) eqn:Hh; [|discriminate].
      destruct encodes; [|discriminate]. cbn [andb].
      destruct (dataUrlOf _) as [u|] eqn:Hurl; [|discriminate].
      intros [= <-]. exists i. apply Z.ltb_lt in Hw, Hh.
      repeat split; auto.
      unfold Supabase.canvasSize.
      destruct (800 <? Supabase.width i) eqn:E; cbn [fst];
        [lia|apply Z.ltb_ge in E; exact E].
    + intros (i & -> & -> & -> & [Hw _] & Hh & Hurl).
      apply Z.ltb_lt in Hw, Hh. rewrite Hw, Hh. cbn [andb]. now rewrite Hurl.
  - intros i -> Hwide Hheight Hflat. destruct readable; [|reflexivity].
    unfold Supabase.canvasSize. apply Z.ltb_lt in Hwide. rewrite Hwide. cbn [fst snd].
    rewrite Z.div_small by lia. reflexivity.
  - reflexivity.
Qed.

Lemma upload_image_result_witness :
  Supabase.uploadImage true (Some (Supabase.mkImage 1600 1200)) true
    (fun _ => Some "data:image/jpeg;base64,AAAA") "u1" = Some "data:image/jpeg;base64,AAAA" /\
  Supabase.uploadImage true (Some (Supabase.mkImage 4000 4)) true
    (fun _ => Some "data:image/jpeg;base64,AAAA") "u1" = None.
Proof.
  split.
  - apply upload_image_result. exists (Supabase.mkImage 1600 1200).
    cbn. repeat split; lia.
  - apply (proj1 (proj2 (upload_image_result true (Some (Supabase.mkImage 4000 4)) true
                           (fun _ => Some "data:image/jpeg;base64,AAAA") "u1"))
             (Supabase.mkImage 4000 4)); cbn; (reflexivity || lia).
Defined.

(** ** A shared entry and its link *)

Lemma freshTokens_app rs rs' : forall st,
  freshTokens st (rs ++ rs') ->
  freshTokens st rs /\ freshTokens (Routes.serve st rs) rs'.
Proof.
  unfold Routes.serve.
  induction rs as [|r rs IH]; intros st; [simpl; tauto|].
  cbn [app freshTokens fold_left]. intros [Hr Hrest].
  destruct (IH _ Hrest) as [H1 H2]. tauto.
Qed.

(** X17. With tokens that are always new, the share request for a stored
    entry is answered 200 with a token that is not empty and with the
    link made of it; under that token the entry, now shared, is found;
    and after the unshare request for it the token finds nothing. *)
Theorem shared_entry_is_found_by_its_link :
  forall (rs : list Routes.request) (id uuid : string) (n : Z) (e : DiaryEntry.t),
    let st := Routes.serve MemStorage.new rs in
    let shared := snd (Routes.shareEntry st id uuid) in
    freshTokens MemStorage.new (rs ++ [Routes.PostShare id uuid]) ->
    parseInt id = Some n ->
    MemStorage.getEntry st n = Some e ->
    exists token,
      token <> "" /\
      fst (Routes.shareEntry st id uuid) =
      Routes.res 200 (Routes.Shared "Entry shared successfully" (Some token)
                        ("/shared/" ++ token)) /\
      MemStorage.getEntryByShareId shared token =
      Some (withSharing true (Some token) e) /\
      MemStorage.getEntryByShareId (snd (Routes.unshareEntry shared id)) token = None.
Proof.
  intros rs id uuid n e st shared Hfresh Hparse Hget.
  destruct (freshTokens_app rs [Routes.PostShare id uuid] MemStorage.new Hfresh)
    as [Hrs Hlast].
  fold st in Hlast. cbn [freshTokens] in Hlast. destruct Hlast as [[Huuid Hnew] _].
  assert (Hok : storageOk st) by (apply storageOk_serve, storageOk_new).
  assert (Hd : tokensDistinct st).
  { apply tokensDistinct_serve; auto using storageOk_new, tokensDistinct_new. }
  assert (Hok1 : storageOk shared)
    by exact (storageOk_handle st (Routes.PostShare id uuid) Hok).
  assert (Hd1 : tokensDistinct shared).
  { apply (tokensDistinct_handle st (Routes.PostShare id uuid) Hok Hd). now split. }
  assert (Hok2 : storageOk (snd (Routes.unshareEntry shared id)))
    by exact (storageOk_handle shared (Routes.PostUnshare id) Hok1).
  assert (Hd2 : tokensDistinct (snd (Routes.unshareEntry shared id)))
    by exact (tokensDistinct_handle shared (Routes.PostUnshare id) Hok1 Hd1 I).
  destruct (getEntry_ok st n e Hok Hget) as (_ & _ & Hne).
  destruct (share_token_settles (DiaryEntry.shareId e) uuid Hne Huuid) as (t & Ht & Hshare).
  exists t. split; [exact Ht|].
  assert (Hshared : Routes.shareEntry st id uuid =
                    (Routes.res 200 (Routes.Shared "Entry shared successfully" (Some t)
                                       ("/shared/" ++ t)),
                     MemStorage.mk (mapSet n (withSharing true (Some t) e) (MemStorage.entries st))
                       (MemStorage.currentId st))).
  { rewrite (shareEntry_found st id uuid n e Hparse Hget). cbv zeta.
    rewrite Hshare. reflexivity. }
  assert (Hget1 : MemStorage.getEntry shared n = Some (withSharing true (Some t) e)).
  { unfold shared. rewrite Hshared. unfold MemStorage.getEntry.
    cbn [snd MemStorage.entries]. apply mapGet_set_same. }
  split; [now rewrite Hshared|]. split.
  - rewrite (lookup_by_token shared n _ t Hok1 Hd1 Hget1 eq_refl). reflexivity.
  - assert (Hget2 : MemStorage.getEntry (snd (Routes.unshareEntry shared id)) n =
                    Some (withSharing false (Some t) (withSharing true (Some t) e))).
    { rewrite (unshareEntry_found shared id n _ Hparse Hget1).
      unfold MemStorage.getEntry. cbn [snd MemStorage.entries]. apply mapGet_set_same. }
    rewrite (lookup_by_token _ n _ t Hok2 Hd2 Hget2 eq_refl). reflexivity.
Qed.

Lemma shared_entry_is_found_by_its_link_witness :
  exists token,
    token <> "" /\
    fst (Routes.shareEntry (Routes.serve MemStorage.new creating) "1" "6fa459ea") =
    Routes.res 200 (Routes.Shared "Entry shared successfully" (Some token)
                      ("/shared/" ++ token)) /\
    MemStorage.getEntryByShareId
      (snd (Routes.shareEntry (Routes.serve MemStorage.new creating) "1" "6fa459ea")) token =
    Some (withSharing true (Some token) fujiEntry) /\
    MemStorage.getEntryByShareId
      (snd (Routes.unshareEntry
              (snd (Routes.shareEntry (Routes.serve MemStorage.new creating) "1" "6fa459ea"))
              "1")) token = None.
Proof.
  apply (shared_entry_is_found_by_its_link creating "1" "6fa459ea" 1 fujiEntry);
    try reflexivity.
  repeat split.
  - discriminate.
  - intros e [<-|[]]. discriminate.
Defined.

(** ** Deleting what is not there *)

Lemma mapDelete_absent {V : Type} (m : list (Z * V)) k :
  mapGet k m = None -> mapDelete k m = m.
Proof.
  induction m as [|[k' v'] m IH]; simpl; [reflexivity|].
  destruct (k =? k') eqn:E; [discriminate|].
  rewrite Z.eqb_sym, E. simpl. intros H. f_equal. auto.
Qed.

(** X18. At the storage, in every state of the server, deleting an id
    under which nothing is stored changes nothing; deleting a stored entry
    leaves one binding less and the counter as it was.  Whatever requests
    follow, the id of the deleted entry is not handed out again: no answer
    201 carries it, nothing is stored under it, and a call of
    [createEntry] in the state they lead to returns another id. *)
Theorem storage_delete_effect :
  forall (rs : list Routes.request) (n : Z),
    let st := Routes.serve MemStorage.new rs in
    (MemStorage.getEntry st n = None -> MemStorage.deleteEntry st n = st) /\
    (forall e, MemStorage.getEntry st n = Some e ->
       S (List.length (MemStorage.entries (MemStorage.deleteEntry st n))) =
       List.length (MemStorage.entries st) /\
       MemStorage.currentId (MemStorage.deleteEntry st n) = MemStorage.currentId st /\
       forall later : list Routes.request,
         let st' := Routes.serve (MemStorage.deleteEntry st n) later in
         ~ In n (createdIds (responses (MemStorage.deleteEntry st n) later)) /\
         MemStorage.getEntry st' n = None /\
         forall d now e',
           fst (MemStorage.createEntry st' d now) = Return e' ->
           DiaryEntry.id e' <> n).
Proof.
  intros rs n st.
  assert (Hok : storageOk st) by (apply storageOk_serve, storageOk_new).
  split.
  - intros Hnone. destruct st as [entries cur]. unfold MemStorage.deleteEntry.
    cbn [MemStorage.entries MemStorage.currentId]. f_equal.
    now apply mapDelete_absent.
  - intros e Hget. split; [|split; [reflexivity|]].
    + destruct Hok as (_ & Hnd & _). unfold MemStorage.getEntry in Hget.
      unfold MemStorage.deleteEntry. cbn [MemStorage.entries].
      revert Hnd Hget. generalize (MemStorage.entries st) as m.
      induction m as [|[k v] m IH]; [discriminate|].
      cbn [mapKeys map fst mapGet mapDelete filter List.length].
      intros Hnd Hget. inversion Hnd as [|? ? Hnotin Hnd']; subst.
      destruct (n =? k) eqn:E.
      * apply Z.eqb_eq in E. subst k. rewrite Z.eqb_refl. cbn [negb].
        f_equal. fold (mapDelete n m). rewrite mapDelete_absent; [reflexivity|].
        destruct (mapGet n m) as [v'|] eqn:Hm; [|reflexivity].
        exfalso. apply Hnotin. apply mapGet_In in Hm.
        change n with (fst (n, v')). now apply in_map.
      * rewrite Z.eqb_sym, E. cbn [negb List.length]. f_equal.
        now apply IH.
    + destruct (getEntry_ok st n e Hok Hget) as (Hid & Hrange & _).
      intros later st'.
      assert (Hcur : MemStorage.currentId (MemStorage.deleteEntry st n) =
                     MemStorage.currentId st) by reflexivity.
      split; [|split].
      * intros Hin.
        destruct (responses_sorted later (MemStorage.deleteEntry st n)) as [_ Hall].
        rewrite Forall_forall in Hall. apply Hall in Hin. lia.
      * apply serve_absent; [lia|].
        unfold MemStorage.getEntry, MemStorage.deleteEntry. cbn [MemStorage.entries].
        apply mapGet_delete_same.
      * intros d now e' Hr. apply createEntry_returned in Hr as (Hid' & _).
        pose proof (serve_currentId later (MemStorage.deleteEntry st n)) as Hmono.
        fold st' in Hmono. lia.
Qed.

Lemma storage_delete_effect_witness :
  MemStorage.deleteEntry (Routes.serve MemStorage.new creating) 9 =
  Routes.serve MemStorage.new creating /\
  S (List.length (MemStorage.entries
                    (MemStorage.deleteEntry (Routes.serve MemStorage.new creating) 1))) =
  1%nat /\
  MemStorage.getEntry
    (Routes.serve (MemStorage.deleteEntry (Routes.serve MemStorage.new creating) 1)
       creating) 1 = None.
Proof.
  destruct (storage_delete_effect creating 9) as (Habsent & _).
  destruct (storage_delete_effect creating 1) as (_ & Hpresent).
  destruct (Hpresent fujiEntry eq_refl) as (Hlength & _ & Hlater).
  split; [apply Habsent; reflexivity|].
  split; [exact Hlength|].
  exact (proj1 (proj2 (Hlater creating))).
Defined.

(** ** Ids with something after the digits *)

Lemma readDigits_decimal_junk d c suffix : forall acc,
  digitValue 10 c = None ->
  readDigits 10 (NilEmpty.string_of_uint d ++ String c suffix) acc true =
  Some (digitsValue d acc).
Proof.
  induction d; intros acc Hc;
    cbn [NilEmpty.string_of_uint String.append readDigits digitsValue];
    [now rewrite Hc|..];
    evaluate_chars; cbv iota beta; rewrite IHd by exact Hc; f_equal; f_equal; lia.
Qed.

Lemma parseInt_decimal_junk d c suffix :
  d <> Decimal.Nil -> d <> Decimal.zero -> digitValue 10 c = None ->
  parseInt (NilEmpty.string_of_uint d ++ String c suffix) = Some (digitsValue d 0) /\
  parseInt (String "-" (NilEmpty.string_of_uint d) ++ String c suffix) =
  Some (- digitsValue d 0).
Proof.
  intros Hd Hz Hc. unfold parseInt.
  destruct d as [|d|d|d|d|d|d|d|d|d|d]; [congruence| | | | | | | | | |];
    try (cbn [NilEmpty.string_of_uint String.append trimStart]; evaluate_chars;
         cbn [stripSign stripHexPrefix readDigits digitsValue]; evaluate_chars;
         cbv iota beta; rewrite readDigits_decimal_junk by exact Hc;
         split; f_equal; lia).
  destruct d; [now elim Hz|..];
    cbn [NilEmpty.string_of_uint String.append trimStart]; evaluate_chars;
    cbn [stripSign stripHexPrefix readDigits digitsValue]; evaluate_chars;
    cbv iota beta; rewrite ?readDigits_decimal_junk by exact Hc;
    repeat match goal with
           | |- context [digitsValue ?d ?x] =>
               let v := eval cbv in x in progress change x with v
           end;
    split; f_equal; lia.
Qed.

Lemma parseInt_junk n c suffix :
  n <> 0 -> digitValue 10 c = None ->
  parseInt (numberToString n ++ String c suffix) = Some n.
Proof.
  intros Hn Hc. unfold numberToString.
  destruct n as [|p|p]; [congruence| |];
    cbn [Z.to_int NilZero.string_of_int];
    pose proof (DecimalPos.Unsigned.to_uint_nonnil p) as Hnil;
    pose proof (DecimalPos.Unsigned.to_uint_nonzero p) as Hzero;
    rewrite (string_of_uint_nonnil _ Hnil).
  - rewrite (proj1 (parseInt_decimal_junk _ c suffix Hnil Hzero Hc)).
    now rewrite <- digitsValue_of_uint, DecimalPos.Unsigned.of_to.
  - rewrite (proj2 (parseInt_decimal_junk _ c suffix Hnil Hzero Hc)).
    now rewrite <- digitsValue_of_uint, DecimalPos.Unsigned.of_to.
Qed.

(** X19. What follows the digits of an id is not looked at: for an
    integer other than zero, written out and followed by a character that
    is not a decimal digit and by anything else, the requests to fetch,
    delete, share and unshare do what they do for the id alone.  Leading
    white space is skipped likewise. *)
Theorem trailing_characters_are_ignored :
  forall (st : MemStorage.t) (n : Z) (c : ascii) (suffix uuid : string),
    n <> 0 -> digitValue 10 c = None ->
    let id := numberToString n in
    let id' := numberToString n ++ String c suffix in
    Routes.getEntry st id' = Routes.getEntry st id /\
    Routes.deleteEntry st id' = Routes.deleteEntry st id /\
    Routes.shareEntry st id' uuid = Routes.shareEntry st id uuid /\
    Routes.unshareEntry st id' = Routes.unshareEntry st id /\
    Routes.getEntry st (String " " id) = Routes.getEntry st id.
Proof.
  intros st n c suffix uuid Hn Hc id id'. subst id id'.
  unfold Routes.getEntry, Routes.deleteEntry, Routes.shareEntry, Routes.unshareEntry.
  rewrite (parseInt_junk n c suffix Hn Hc), parseInt_numberToString.
  repeat split.
  replace (parseInt (String " " (numberToString n))) with (parseInt (numberToString n))
    by reflexivity.
  now rewrite parseInt_numberToString.
Qed.

Lemma trailing_characters_are_ignored_witness :
  Routes.getEntry (Routes.serve MemStorage.new creating) "1abc" =
  Routes.res 200 (Routes.Entry fujiEntry).
Proof.
  assert (H1 : 1 <> 0) by discriminate.
  assert (H2 : digitValue 10 "a" = None) by reflexivity.
  exact (proj1 (trailing_characters_are_ignored (Routes.serve MemStorage.new creating)
                  1 "a" "bc" "" H1 H2)).
Defined.
